(** * Khabri dashboard: the client-side orchestration layer

    A shallow embedding of [src/services/api.js] (the [api] object) and of
    the stateful part of [src/components/Dashboard.jsx] (the hooks, the two
    effects and the event handlers), followed by the properties of the
    specification that are settled against it.

    Conventions.
    - JavaScript strings are byte strings in UTF-8; the code only
      concatenates, compares and trims them.
    - An [async] function is cut at each [await] of an [api] call: the part
      before is a synchronous segment, the part after is a continuation that
      receives the completion of the awaited call.
    - A synchronous segment is a list of commands in program order (the
      state setters and the [api] calls it performs).  React applies queued
      updates in the order of the calls, so executing the list from left to
      right gives the committed state.
    - An awaited [api] call settles in one turn of the event loop: between
      its two inner awaits ([fetch] and [response.json()]) the operation
      neither reads nor writes the component.
    - Time is a clock in milliseconds that only the event [Tick] advances;
      a timer may fire at any turn at which it is due.
    - The embedding follows the state of the hooks.  The JSX that [return]
      builds from that state is not part of it: a property speaks of what
      the hooks hold, and where it speaks of what is shown it is restricted
      to values that the JSX renders (strings in bubbles, arrays as lists). *)

From Stdlib Require Import String Ascii List Bool Arith NArith ZArith Lia.
Import ListNotations.
Local Open Scope string_scope.
Set Warnings "-register-all".

(** ** JavaScript values *)

Module JS.

(** The values that [JSON.parse] builds.  Numbers are kept as integers: the
    code never computes with them, it only tests them for truthiness.
    [undefined] is not a JSON value; where an expression can evaluate to it
    (the read of an absent property) the result is an [option Value] and
    [None] stands for [undefined]. *)
Inductive Value : Type :=
| Null
| Boolean (b : bool)
| Num (n : Z)
| Str (s : string)
| Arr (xs : list Value)
| Obj (fields : list (string * Value)).

(** An [Error] object: its constructor name and its [message]. *)
Record Error : Type := mkError { name : string; message : string }.

(** How the evaluation of an expression or of an awaited promise ends. *)
Inductive Completion (A : Type) : Type :=
| Normal (a : A)
| Throw (e : Error).
Arguments Normal {A} a.
Arguments Throw {A} e.

(** [ToBoolean]. *)
Definition truthy (v : Value) : bool :=
  match v with
  | Null => false
  | Boolean b => b
  | Num n => negb (n =? 0)%Z
  | Str s => negb (s =? "")
  | Arr _ | Obj _ => true
  end.

(** [a || b]. *)
Definition or (a b : Value) : Value := if truthy a then a else b.

(** [a || b] where [a] may be [undefined]. *)
Definition orElse (a : option Value) (b : Value) : Value :=
  match a with
  | Some v => or v b
  | None => b
  end.

Fixpoint lookup (key : string) (fields : list (string * Value)) : option Value :=
  match fields with
  | [] => None
  | (k, v) :: rest => if k =? key then Some v else lookup key rest
  end.

(** [v.key] for a key that no prototype defines (such as [response]):
    reading a property of [null] throws a [TypeError], an object yields its
    own field or [undefined], every other value yields [undefined]. *)
Definition getProp (v : Value) (key : string) : Completion (option Value) :=
  match v with
  | Null =>
      Throw (mkError "TypeError"
               ("Cannot read properties of null (reading '" ++ key ++ "')"))
  | Obj fields => Normal (lookup key fields)
  | _ => Normal None
  end.

(** *** [String.prototype.trim] on UTF-8 bytes

    White space and line terminators of ECMAScript: U+0009..U+000D,
    U+0020, U+00A0, U+1680, U+2000..U+200A, U+2028, U+2029, U+202F,
    U+205F, U+3000, U+FEFF. *)

Definition byte_is (c : ascii) (n : N) : bool := (N_of_ascii c =? n)%N.

Definition byte_in (c : ascii) (lo hi : N) : bool :=
  ((lo <=? N_of_ascii c) && (N_of_ascii c <=? hi))%N.

Definition ws1 (c : ascii) : bool := byte_in c 9 13 || byte_is c 32.

Definition ws2 (c1 c2 : ascii) : bool := byte_is c1 194 && byte_is c2 160.

Definition ws3 (c1 c2 c3 : ascii) : bool :=
  (byte_is c1 225 && byte_is c2 154 && byte_is c3 128)
  || (byte_is c1 226 && byte_is c2 128
      && (byte_in c3 128 138 || byte_in c3 168 169 || byte_is c3 175))
  || (byte_is c1 226 && byte_is c2 129 && byte_is c3 159)
  || (byte_is c1 227 && byte_is c2 128 && byte_is c3 128)
  || (byte_is c1 239 && byte_is c2 187 && byte_is c3 191).

Fixpoint dropStart (l : list ascii) : list ascii :=
  match l with
  | [] => []
  | c1 :: r1 =>
      if ws1 c1 then dropStart r1 else
      match r1 with
      | c2 :: r2 =>
          if ws2 c1 c2 then dropStart r2 else
          match r2 with
          | c3 :: r3 => if ws3 c1 c2 c3 then dropStart r3 else l
          | [] => l
          end
      | [] => l
      end
  end.

(** The same scan from the end, on the reversed bytes. *)
Fixpoint dropStartRev (l : list ascii) : list ascii :=
  match l with
  | [] => []
  | c1 :: r1 =>
      if ws1 c1 then dropStartRev r1 else
      match r1 with
      | c2 :: r2 =>
          if ws2 c2 c1 then dropStartRev r2 else
          match r2 with
          | c3 :: r3 => if ws3 c3 c2 c1 then dropStartRev r3 else l
          | [] => l
          end
      | [] => l
      end
  end.

Definition trim (s : string) : string :=
  string_of_list_ascii
    (rev (dropStartRev (rev (dropStart (list_ascii_of_string s))))).

(** [!s] for a string [s]. *)
Definition emptyStr (s : string) : bool := s =? "".

End JS.

(** ** The API service ([src/services/api.js]) *)

Module Api.
Import JS.

Definition API_BASE_URL : string := "http://localhost:8000/api".

(** What [fetch] is called with. *)
Record HttpRequest : Type := mkRequest
  { url : string;
    method : string;
    headers : list (string * string);
    body : option Value (* the value handed to [JSON.stringify] *) }.

(** What the network answers: [fetch] rejects, or resolves to a response
    whose [ok] flag is set for a 2xx status and whose [json()] promise
    resolves to the parsed body or rejects with a [SyntaxError]. *)
Inductive JsonBody : Type :=
| BadJson (e : Error)
| Json (v : Value).

Record Response : Type := mkResponse { ok : bool; json : JsonBody }.

Inductive FetchOutcome : Type :=
| Rejected (e : Error)
| Responded (r : Response).

(** The result object of [triggerResultProcessing]:
    [{ status: 'success', data }] or [{ status: 'error', error }]. *)
Inductive ProcessResult : Type :=
| Success (data : Value)
| Failure (error : string).

Definition status (r : ProcessResult) : string :=
  match r with
  | Success _ => "success"
  | Failure _ => "error"
  end.

(** *** A small monad for the bodies: exceptions and the console *)

Definition M (A : Type) : Type := list Error * Completion A.

Definition ret {A} (a : A) : M A := ([], Normal a).

Definition throw {A} (e : Error) : M A := ([], Throw e).

Definition bind {A B} (m : M A) (k : A -> M B) : M B :=
  match m with
  | (out, Normal a) => let (out', c) := k a in ((out ++ out')%list, c)
  | (out, Throw e) => (out, Throw e)
  end.

Definition tryCatch {A} (m : M A) (handler : Error -> M A) : M A :=
  match m with
  | (out, Throw e) => let (out', c) := handler e in ((out ++ out')%list, c)
  | (out, Normal a) => (out, Normal a)
  end.

Definition lift {A} (c : Completion A) : M A := ([], c).

(** [console.error('API Error:', error)]. *)
Definition console_error (e : Error) : M unit := ([e], Normal tt).

Definition await_fetch (net : FetchOutcome) : M Response :=
  match net with
  | Rejected e => throw e
  | Responded r => ret r
  end.

Definition await_json (r : Response) : M Value :=
  match json r with
  | BadJson e => throw e
  | Json v => ret v
  end.

Notation "x <- m ;; k" := (bind m (fun x => k))
  (at level 61, m at next level, right associativity).
Notation "m ;;; k" := (bind m (fun _ => k))
  (at level 61, right associativity).

(** [if (!response.ok) throw new Error(msg)]. *)
Definition check_ok (r : Response) (msg : string) : M unit :=
  if negb (ok r) then throw (mkError "Error" msg) else ret tt.

Definition fetchUpcomingResults_request : HttpRequest :=
  mkRequest (API_BASE_URL ++ "/upcoming-results") "GET" [] None.

Definition fetchUpcomingResults_body (net : FetchOutcome) : M Value :=
  tryCatch
    (response <- await_fetch net ;;
     check_ok response "Failed to fetch upcoming results" ;;;
     data <- await_json response ;;
     ret (JS.or data (Arr [])))
    (fun error =>
       console_error error ;;;
       ret (Arr [])).

Definition fetchLatestResults_request : HttpRequest :=
  mkRequest (API_BASE_URL ++ "/latest-results") "GET" [] None.

Definition fetchLatestResults_body (net : FetchOutcome) : M Value :=
  tryCatch
    (response <- await_fetch net ;;
     check_ok response "Failed to fetch latest results" ;;;
     data <- await_json response ;;
     ret (JS.or data (Arr [])))
    (fun error =>
       console_error error ;;;
       ret (Arr [])).

Definition sendChatMessage_request (question : string) : HttpRequest :=
  mkRequest (API_BASE_URL ++ "/chat") "POST"
    [("Content-Type", "application/json")]
    (Some (Obj [("question", Str question)])).

Definition sendChatMessage_body (question : string) (net : FetchOutcome)
  : M Value :=
  tryCatch
    (response <- await_fetch net ;;
     check_ok response "Failed to send message" ;;;
     data <- await_json response ;;
     answer <- lift (getProp data "response") ;;
     ret (orElse answer (Str "Sorry, I could not process that.")))
    (fun error =>
       console_error error ;;;
       ret (Str "Error connecting to server. Please check if the backend is running.")).

Definition triggerResultProcessing_request (company ticker : string)
  : HttpRequest :=
  mkRequest (API_BASE_URL ++ "/analyze/" ++ ticker) "POST"
    [("Content-Type", "application/json")] None.

Definition triggerResultProcessing_body (company ticker : string)
    (net : FetchOutcome) : M ProcessResult :=
  tryCatch
    (response <- await_fetch net ;;
     check_ok response "Failed to process result" ;;;
     data <- await_json response ;;
     ret (Success data))
    (fun error =>
       console_error error ;;;
       ret (Failure (message error))).

(** What the caller of an operation observes: how its promise settles. *)
Definition fetchUpcomingResults (net : FetchOutcome) : Completion Value :=
  snd (fetchUpcomingResults_body net).

Definition fetchLatestResults (net : FetchOutcome) : Completion Value :=
  snd (fetchLatestResults_body net).

Definition sendChatMessage (question : string) (net : FetchOutcome)
  : Completion Value :=
  snd (sendChatMessage_body question net).

Definition triggerResultProcessing (company ticker : string)
    (net : FetchOutcome) : Completion ProcessResult :=
  snd (triggerResultProcessing_body company ticker net).

(** The shape of the object that [Dashboard.jsx] imports as [api]. *)
Record Service : Type := mkService
  { svc_fetchUpcomingResults : FetchOutcome -> Completion Value;
    svc_fetchLatestResults : FetchOutcome -> Completion Value;
    svc_sendChatMessage : string -> FetchOutcome -> Completion Value;
    svc_triggerResultProcessing :
      string -> string -> FetchOutcome -> Completion ProcessResult }.

Definition api : Service :=
  mkService fetchUpcomingResults fetchLatestResults
    sendChatMessage triggerResultProcessing.

End Api.

(** ** The dashboard component ([src/components/Dashboard.jsx]) *)

Module Dashboard.
Import JS Api.

(** *** State: the nine [useState] hooks *)

(** A chat bubble [{ type, text }].  The text of a bot bubble is whatever
    [api.sendChatMessage] resolved to. *)
Record ChatMessage : Type := mkMsg { type : string; text : Value }.

Record State : Type := mkState
  { activeTab : string;
    upcomingResults : Value;
    latestResults : Value;
    chatInput : string;
    chatMessages : list ChatMessage;
    loading : bool;
    error : option string;
    processingCompany : option string;
    notification : option string }.

(** The double quote character, as a string. *)
Definition dquote : string := String (ascii_of_nat 34) EmptyString.

Definition initialState : State :=
  {| activeTab := "calendar";
     upcomingResults := Arr [];
     latestResults := Arr [];
     chatInput := "";
     chatMessages :=
       [ mkMsg "bot"
           (Str ("Hey! Ask me anything about recent results. Try: "
                 ++ dquote ++ "How did Wipro perform?" ++ dquote)) ];
     loading := false;
     error := None;
     processingCompany := None;
     notification := None |}.

(** The calls of [api] that a handler awaits. *)
Inductive ApiCall : Type :=
| CallUpcoming
| CallLatest
| CallChat (question : string)
| CallProcess (company ticker : string).

(** The commands of a synchronous segment: the state setters, and the start
    of an awaited [api] call, at which the segment ends. *)
Inductive Cmd : Type :=
| setActiveTab (t : string)
| setUpcomingResults (v : Value)
| setLatestResults (v : Value)
| setChatInput (s : string)
| setChatMessages (f : list ChatMessage -> list ChatMessage)
| setLoading (b : bool)
| setError (e : option string)
| setProcessingCompany (c : option string)
| setNotification (n : option string)
| await (c : ApiCall).

(** *** The handlers, cut at their [await] *)

Definition loadUpcomingResults : list Cmd :=
  [ setLoading true; setError None; await CallUpcoming ].

Definition loadUpcomingResults_resume (data : Completion Value) : list Cmd :=
  (match data with
  | Normal data => [ setUpcomingResults data ]
  | Throw err => [ setError (Some "Failed to load upcoming results") ]
  end ++ [ setLoading false ])%list.

Definition loadLatestResults : list Cmd :=
  [ setLoading true; setError None; await CallLatest ].

Definition loadLatestResults_resume (data : Completion Value) : list Cmd :=
  (match data with
  | Normal data => [ setLatestResults data ]
  | Throw err => [ setError (Some "Failed to load latest results") ]
  end ++ [ setLoading false ])%list.

Definition handleProcessResult (company ticker : string) : list Cmd :=
  [ setProcessingCompany (Some company); await (CallProcess company ticker) ].

(** The two template literals of [handleProcessResult]. *)
Definition successToast (company : string) : string :=
  "✅ Successfully processed " ++ company ++ " results!".

Definition errorToast (company error : string) : string :=
  "❌ Error processing " ++ company ++ ": " ++ error.

(** [result.error] inside a template literal. *)
Definition errorOf (result : ProcessResult) : string :=
  match result with
  | Failure error => error
  | Success _ => "undefined"
  end.

(** The part after the [await]: the commands it runs, and the error its
    promise rejects with when the awaited call threw (there is no [try]). *)
Definition handleProcessResult_resume (company : string)
    (result : Completion ProcessResult) : list Cmd * option Error :=
  match result with
  | Throw e => ([], Some e)
  | Normal result =>
      (app
         (if status result =? "success"
          then [ setNotification (Some (successToast company));
                 setActiveTab "latest" ]
          else [ setNotification (Some (errorToast company (errorOf result))) ])
         [ setProcessingCompany None ],
       None)
  end.

Definition thinkingMessage : ChatMessage := mkMsg "bot" (Str "🤔 Analyzing...").

Definition handleChatSubmit (chatInput : string) : list Cmd :=
  if emptyStr (trim chatInput) then []
  else
    let userMessage := mkMsg "user" (Str chatInput) in
    [ setChatMessages (fun prev => (prev ++ [userMessage])%list);
      setChatInput "";
      setChatMessages (fun prev => (prev ++ [thinkingMessage])%list);
      await (CallChat chatInput) ].

(** [prev.slice(0, -1)] is [removelast prev]. *)
Definition handleChatSubmit_resume (answer : Completion Value)
  : list Cmd * option Error :=
  match answer with
  | Throw e => ([], Some e)
  | Normal answer =>
      ([ setChatMessages (fun prev => (removelast prev ++ [mkMsg "bot" answer])%list) ],
       None)
  end.

(** *** The world around the component

    Besides the hook state: the awaited [api] calls that have not settled
    (oldest first, each with the number it was started under), the pending
    [setTimeout] timers with the time at which they are due, the timer
    handle held by the cleanup function of the notification effect, a clock
    in milliseconds, and the rejections no handler caught. *)
Record World : Type := mkWorld
  { state : State;
    pending : list (nat * ApiCall);
    nextCall : nat;
    timers : list (nat * nat);
    nextTimer : nat;
    cleanup : option nat;
    clock : nat;
    unhandled : list Error }.

Definition setState (f : State -> State) (w : World) : World :=
  mkWorld (f (state w)) (pending w) (nextCall w) (timers w) (nextTimer w)
    (cleanup w) (clock w) (unhandled w).

Definition exec1 (w : World) (c : Cmd) : World :=
  match c with
  | setActiveTab t =>
      setState (fun s => mkState t (upcomingResults s) (latestResults s)
        (chatInput s) (chatMessages s) (loading s) (error s)
        (processingCompany s) (notification s)) w
  | setUpcomingResults v =>
      setState (fun s => mkState (activeTab s) v (latestResults s)
        (chatInput s) (chatMessages s) (loading s) (error s)
        (processingCompany s) (notification s)) w
  | setLatestResults v =>
      setState (fun s => mkState (activeTab s) (upcomingResults s) v
        (chatInput s) (chatMessages s) (loading s) (error s)
        (processingCompany s) (notification s)) w
  | setChatInput i =>
      setState (fun s => mkState (activeTab s) (upcomingResults s)
        (latestResults s) i (chatMessages s) (loading s) (error s)
        (processingCompany s) (notification s)) w
  | setChatMessages f =>
      setState (fun s => mkState (activeTab s) (upcomingResults s)
        (latestResults s) (chatInput s) (f (chatMessages s)) (loading s)
        (error s) (processingCompany s) (notification s)) w
  | setLoading b =>
      setState (fun s => mkState (activeTab s) (upcomingResults s)
        (latestResults s) (chatInput s) (chatMessages s) b (error s)
        (processingCompany s) (notification s)) w
  | setError e =>
      setState (fun s => mkState (activeTab s) (upcomingResults s)
        (latestResults s) (chatInput s) (chatMessages s) (loading s) e
        (processingCompany s) (notification s)) w
  | setProcessingCompany c =>
      setState (fun s => mkState (activeTab s) (upcomingResults s)
        (latestResults s) (chatInput s) (chatMessages s) (loading s)
        (error s) c (notification s)) w
  | setNotification n =>
      setState (fun s => mkState (activeTab s) (upcomingResults s)
        (latestResults s) (chatInput s) (chatMessages s) (loading s)
        (error s) (processingCompany s) n) w
  | await call =>
      mkWorld (state w) (pending w ++ [(nextCall w, call)])%list (S (nextCall w))
        (timers w) (nextTimer w) (cleanup w) (clock w) (unhandled w)
  end.

Definition exec (cmds : list Cmd) (w : World) : World :=
  fold_left exec1 cmds w.

(** *** The two effects *)

(** [useEffect(..., [activeTab])]: load the list of the tab. *)
Definition tabEffect (s : State) : list Cmd :=
  if activeTab s =? "calendar" then loadUpcomingResults
  else if activeTab s =? "latest" then loadLatestResults
  else [].

(** [clearTimeout(timer)]. *)
Definition clearTimeout (id : nat) (w : World) : World :=
  mkWorld (state w) (pending w) (nextCall w)
    (filter (fun t => negb (Nat.eqb (fst t) id)) (timers w)) (nextTimer w)
    (cleanup w) (clock w) (unhandled w).

(** The cleanup returned by the previous run of the notification effect,
    if that run returned one. *)
Definition notificationCleanup (w : World) : World :=
  match cleanup w with
  | Some id => clearTimeout id w
  | None => w
  end.

(** [useEffect(..., [notification])]: when the notification is truthy,
    start a timer of 3000 ms and return the cleanup that clears it. *)
Definition notificationEffect (w : World) : World :=
  match notification (state w) with
  | Some n =>
      if negb (emptyStr n)
      then mkWorld (state w) (pending w) (nextCall w)
             (timers w ++ [(nextTimer w, clock w + 3000)])%list (S (nextTimer w))
             (Some (nextTimer w)) (clock w) (unhandled w)
      else mkWorld (state w) (pending w) (nextCall w) (timers w)
             (nextTimer w) None (clock w) (unhandled w)
  | None =>
      mkWorld (state w) (pending w) (nextCall w) (timers w)
        (nextTimer w) None (clock w) (unhandled w)
  end.

Definition sameNotification (a b : option string) : bool :=
  match a, b with
  | None, None => true
  | Some x, Some y => x =? y
  | _, _ => false
  end.

(** After a segment the component renders again and React runs the effects
    of which a dependency changed ([Object.is] on the old and new value).
    The loads started by the first effect set [loading] and [error] only,
    so no dependency changes again. *)
Definition commit (old : State) (w : World) : World :=
  let w1 :=
    if activeTab old =? activeTab (state w) then w
    else exec (tabEffect (state w)) w in
  if sameNotification (notification old) (notification (state w1)) then w1
  else notificationEffect (notificationCleanup w1).

Definition dispatch (cmds : list Cmd) (w : World) : World :=
  commit (state w) (exec cmds w).

(** The first render: both effects run. *)
Definition mount : World :=
  let w0 := mkWorld initialState [] 0 [] 0 None 0 [] in
  notificationEffect (exec (tabEffect (state w0)) w0).

(** *** Events *)

Inductive TabButton : Type := CalendarTab | LatestTab | ChatTab.

Definition tab_id (b : TabButton) : string :=
  match b with
  | CalendarTab => "calendar"
  | LatestTab => "latest"
  | ChatTab => "chat"
  end.

Inductive Event : Type :=
| ClickTab (b : TabButton)
| ClickRefresh
| DismissError
| ClickCard (company ticker : string)
| TypeChat (s : string)
| SubmitChat
| Settle (id : nat) (net : FetchOutcome)
| Timeout (id : nat)
| Tick (ms : nat).

Fixpoint findCall (id : nat) (l : list (nat * ApiCall)) : option ApiCall :=
  match l with
  | [] => None
  | (i, c) :: rest => if Nat.eqb i id then Some c else findCall id rest
  end.

Definition settled (id : nat) (w : World) : World :=
  mkWorld (state w) (filter (fun p => negb (Nat.eqb (fst p) id)) (pending w))
    (nextCall w) (timers w) (nextTimer w) (cleanup w) (clock w) (unhandled w).

Fixpoint findTimer (id : nat) (l : list (nat * nat)) : option nat :=
  match l with
  | [] => None
  | (i, due) :: rest => if Nat.eqb i id then Some due else findTimer id rest
  end.

(** A timer that fires leaves the list of pending timers. *)
Definition fired (id : nat) (w : World) : World :=
  mkWorld (state w) (pending w) (nextCall w)
    (filter (fun t => negb (Nat.eqb (fst t) id)) (timers w)) (nextTimer w)
    (cleanup w) (clock w) (unhandled w).

Definition reject (e : option Error) (w : World) : World :=
  match e with
  | Some e =>
      mkWorld (state w) (pending w) (nextCall w) (timers w) (nextTimer w)
        (cleanup w) (clock w) (unhandled w ++ [e])%list
  | None => w
  end.

Definition advance (ms : nat) (w : World) : World :=
  mkWorld (state w) (pending w) (nextCall w) (timers w) (nextTimer w)
    (cleanup w) (clock w + ms) (unhandled w).

(** *** What the rendered page offers

    A card per element of [upcomingResults] (shown on the calendar tab when
    nothing is loading), the chat form on the chat tab, the error banner
    while [error] is truthy; the tab buttons and the refresh button always.
    Settling promises, timers and the passing of time are not the user's. *)
Definition cardOf (item : Value) : list (string * string) :=
  match getProp item "company_name", getProp item "company_symbol" with
  | Normal (Some (Str company)), Normal (Some (Str ticker)) => [(company, ticker)]
  | _, _ => []
  end.

Definition cards (s : State) : list (string * string) :=
  match upcomingResults s with
  | Arr items => flat_map cardOf items
  | _ => []
  end.

Definition offered (s : State) (ev : Event) : bool :=
  match ev with
  | ClickTab _ | ClickRefresh => true
  | DismissError =>
      match error s with
      | Some e => negb (emptyStr e)
      | None => false
      end
  | ClickCard company ticker =>
      (activeTab s =? "calendar") && negb (loading s)
      && existsb (fun c => (fst c =? company) && (snd c =? ticker)) (cards s)
  | TypeChat _ | SubmitChat => activeTab s =? "chat"
  | Settle _ _ | Timeout _ | Tick _ => true
  end.

Section WithApi.

Variable api : Service.

(** The continuation of the handler that awaits [call], run on the
    completion of the call. *)
Definition resume (call : ApiCall) (net : FetchOutcome) (w : World) : World :=
  match call with
  | CallUpcoming =>
      dispatch (loadUpcomingResults_resume (svc_fetchUpcomingResults api net)) w
  | CallLatest =>
      dispatch (loadLatestResults_resume (svc_fetchLatestResults api net)) w
  | CallChat question =>
      let (cmds, e) :=
        handleChatSubmit_resume (svc_sendChatMessage api question net) in
      reject e (dispatch cmds w)
  | CallProcess company ticker =>
      let (cmds, e) :=
        handleProcessResult_resume company
          (svc_triggerResultProcessing api company ticker net) in
      reject e (dispatch cmds w)
  end.

(** One turn of the event loop.  [None]: the event cannot happen (no such
    pending call, no such timer, or the timer is not due). *)
Definition step (w : World) (ev : Event) : option World :=
  match ev with
  | ClickTab b => Some (dispatch [ setActiveTab (tab_id b) ] w)
  | ClickRefresh =>
      Some (dispatch (if activeTab (state w) =? "calendar"
                      then loadUpcomingResults else loadLatestResults) w)
  | DismissError => Some (dispatch [ setError None ] w)
  | ClickCard company ticker =>
      Some (dispatch (handleProcessResult company ticker) w)
  | TypeChat s => Some (dispatch [ setChatInput s ] w)
  | SubmitChat => Some (dispatch (handleChatSubmit (chatInput (state w))) w)
  | Settle id net =>
      match findCall id (pending w) with
      | Some call => Some (resume call net (settled id w))
      | None => None
      end
  | Timeout id =>
      match findTimer id (timers w) with
      | Some due =>
          if Nat.leb due (clock w)
          then Some (dispatch [ setNotification None ] (fired id w))
          else None
      | None => None
      end
  | Tick ms => Some (advance ms w)
  end.

Fixpoint run (evs : list Event) (w : World) : option World :=
  match evs with
  | [] => Some w
  | ev :: rest =>
      match step w ev with
      | Some w' => run rest w'
      | None => None
      end
  end.

(** A run in which the user only uses what the page offers. *)
Fixpoint session (evs : list Event) (w : World) : option World :=
  match evs with
  | [] => Some w
  | ev :: rest =>
      if offered (state w) ev
      then match step w ev with
           | Some w' => session rest w'
           | None => None
           end
      else None
  end.

End WithApi.

End Dashboard.

Import JS Api Dashboard.

(** ** Vocabulary of the properties *)

(** The numbers of the pending calls are below the next number to hand out. *)
Definition wellNumbered (w : World) : Prop :=
  Forall (fun p => fst p < nextCall w) (pending w).

(** The hook state is the same but for [loading] and [error], the two
    fields that the loads started by the tab effect write. *)
Definition sameData (s s' : State) : Prop :=
  activeTab s' = activeTab s
  /\ upcomingResults s' = upcomingResults s
  /\ latestResults s' = latestResults s
  /\ chatInput s' = chatInput s
  /\ chatMessages s' = chatMessages s
  /\ processingCompany s' = processingCompany s
  /\ notification s' = notification s.

(** The calls that a segment starts, and the numbers they get. *)
Fixpoint awaits (cmds : list Cmd) : list ApiCall :=
  match cmds with
  | [] => []
  | await c :: rest => c :: awaits rest
  | _ :: rest => awaits rest
  end.

Fixpoint numbered (n : nat) (calls : list ApiCall) : list (nat * ApiCall) :=
  match calls with
  | [] => []
  | c :: rest => (n, c) :: numbered (S n) rest
  end.

(** *** API failures *)

(** The request failed: [fetch] rejected, or the status was not ok. *)
Definition failedRequest (net : FetchOutcome) : bool :=
  match net with
  | Rejected _ => true
  | Responded r => negb (ok r)
  end.

Definition chatApology : string := "Sorry, I could not process that.".

Definition chatFallback : string :=
  "Error connecting to server. Please check if the backend is running.".

(** The [response] field of a parsed body, in the words of the
    specification: a body that is not an object has no such field. *)
Definition responseField (body : Value) : option Value :=
  match body with
  | Obj fields => lookup "response" fields
  | _ => None
  end.

Definition missingOrFalsy (body : Value) : bool :=
  match responseField body with
  | Some v => negb (truthy v)
  | None => true
  end.

(** An ok response whose body parsed to [body]. *)
Definition okBody (body : Value) : FetchOutcome :=
  Responded (mkResponse true (Json body)).

(** The statement about malformed ok responses, as the specification has
    it: every ok body without a truthy [response] yields the apology. *)
Definition malformedYieldsApology : Prop :=
  forall (question : string) (body : Value),
    missingOrFalsy body = true ->
    sendChatMessage question (okBody body) = Normal (Str chatApology).

(** *** Resource loads *)

Inductive Resource : Type := Upcoming | Latest.

Definition loaderCall (r : Resource) : ApiCall :=
  match r with
  | Upcoming => CallUpcoming
  | Latest => CallLatest
  end.

Definition stored (r : Resource) (s : State) : Value :=
  match r with
  | Upcoming => upcomingResults s
  | Latest => latestResults s
  end.

Definition boundFetch (api : Service) (r : Resource)
  : FetchOutcome -> Completion Value :=
  match r with
  | Upcoming => svc_fetchUpcomingResults api
  | Latest => svc_fetchLatestResults api
  end.

(** A service whose two fetch functions reject, as a bound fetch function
    that fails would; the other two operations are those of [api]. *)
Definition rejectingService : Service :=
  mkService
    (fun _ => Throw (mkError "Error" "Failed to fetch upcoming results"))
    (fun _ => Throw (mkError "Error" "Failed to fetch latest results"))
    sendChatMessage triggerResultProcessing.

Definition loadFailure (r : Resource) : string :=
  match r with
  | Upcoming => "Failed to load upcoming results"
  | Latest => "Failed to load latest results"
  end.

(** *** Tabs *)

(** The calls started between [w] and a later world [w']. *)
Definition started (w w' : World) : list ApiCall :=
  map snd (filter (fun p => Nat.leb (nextCall w) (fst p)) (pending w')).

Definition loadOnEntry (tab : string) : list ApiCall :=
  if tab =? "calendar" then [CallUpcoming]
  else if tab =? "latest" then [CallLatest]
  else [].

(** *** Chat *)

Definition isAwait (c : Cmd) : bool :=
  match c with
  | await _ => true
  | _ => false
  end.

Definition isThinking (m : ChatMessage) : bool :=
  (type m =? "bot")
  && match text m with
     | Str t => t =? "🤔 Analyzing..."
     | _ => false
     end.

(** Placeholder bubbles in the transcript. *)
Definition placeholders (w : World) : nat :=
  length (filter isThinking (chatMessages (state w))).

Definition isChatCall (p : nat * ApiCall) : bool :=
  match snd p with
  | CallChat _ => true
  | _ => false
  end.

(** Submits whose call has not settled. *)
Definition outstandingChats (w : World) : nat :=
  length (filter isChatCall (pending w)).

Definition chatCall (c : ApiCall) : bool :=
  match c with
  | CallChat _ => true
  | _ => false
  end.

(** Events that are not part of the chat: no submit, and no settling of
    the call numbered [id]. *)
Definition quiet (id : nat) (ev : Event) : bool :=
  match ev with
  | SubmitChat => false
  | Settle i _ => negb (Nat.eqb i id)
  | _ => true
  end.

(** The transcript is [msgs] and the one chat call that is pending is the
    call numbered [id], for the question [q]. *)
Definition chatHeld (id : nat) (q : string) (msgs : list ChatMessage)
    (w : World) : Prop :=
  chatMessages (state w) = msgs
  /\ findCall id (pending w) = Some (CallChat q)
  /\ (forall p, In p (pending w) -> isChatCall p = true -> fst p = id).

(** One submit without concurrency: type the question, submit, and let the
    call settle before anything else.  The worlds passed through. *)
Definition chat_round (api : Service) (q : string) (net : FetchOutcome)
    (w : World) : option (list World) :=
  match step api w (TypeChat q) with
  | Some w1 =>
      match step api w1 SubmitChat with
      | Some w2 =>
          match step api w2 (Settle (nextCall w1) net) with
          | Some w3 => Some [w1; w2; w3]
          | None => None
          end
      | None => None
      end
  | None => None
  end.

Fixpoint chat_session (api : Service) (qs : list (string * FetchOutcome))
    (w : World) : option (list World) :=
  match qs with
  | [] => Some []
  | (q, net) :: rest =>
      match chat_round api q net w with
      | Some ws =>
          match chat_session api rest (last ws w) with
          | Some ws' => Some (ws ++ ws')%list
          | None => None
          end
      | None => None
      end
  end.

Definition nonBlank (qs : list (string * FetchOutcome)) : Prop :=
  Forall (fun qn => emptyStr (trim (fst qn)) = false) qs.

(** A dashboard whose chat has not been used: the transcript is the one
    of the first render and no chat call is pending. *)
Definition freshChat (w : World) : Prop :=
  chatMessages (state w) = chatMessages initialState
  /\ outstandingChats w = 0
  /\ wellNumbered w.

(** The transcript length as the specification has it: [2N] after [N]
    submits that settled one after the other, from a fresh chat. *)
Definition transcriptIsTwoN : Prop :=
  forall (w : World) (qs : list (string * FetchOutcome)) (ws : list World),
    freshChat w ->
    nonBlank qs ->
    chat_session api qs w = Some ws ->
    length (chatMessages (state (last ws w))) = 2 * length qs.

(** *** Submits along a run

    What one turn of the event loop adds to three counts: the submits that
    are accepted (the input is not blank), the answers that read exactly as
    the placeholder (a placeholder has no mark but its text), and whether
    the turn is a submit accepted while another chat call is pending. *)
Definition acceptedBy (w : World) (ev : Event) : nat :=
  match ev with
  | SubmitChat => if emptyStr (trim (chatInput (state w))) then 0 else 1
  | _ => 0
  end.

Definition echoBy (w : World) (ev : Event) : nat :=
  match ev with
  | Settle id net =>
      match findCall id (pending w) with
      | Some (CallChat q) =>
          match sendChatMessage q net with
          | Normal a => if isThinking (mkMsg "bot" a) then 1 else 0
          | Throw _ => 0
          end
      | _ => 0
      end
  | _ => 0
  end.

Definition overlapsBy (w : World) (ev : Event) : bool :=
  match ev with
  | SubmitChat =>
      negb (emptyStr (trim (chatInput (state w))))
      && negb (Nat.eqb (outstandingChats w) 0)
  | _ => false
  end.

Fixpoint accepted (evs : list Event) (w : World) : nat :=
  match evs with
  | [] => 0
  | ev :: rest =>
      match step api w ev with
      | Some w' => acceptedBy w ev + accepted rest w'
      | None => 0
      end
  end.

Fixpoint echoes (evs : list Event) (w : World) : nat :=
  match evs with
  | [] => 0
  | ev :: rest =>
      match step api w ev with
      | Some w' => echoBy w ev + echoes rest w'
      | None => 0
      end
  end.

(** No concurrency: no submit is accepted while a chat call is pending. *)
Fixpoint sequential (evs : list Event) (w : World) : bool :=
  match evs with
  | [] => true
  | ev :: rest =>
      negb (overlapsBy w ev)
      && match step api w ev with
         | Some w' => sequential rest w'
         | None => true
         end
  end.

(** The bound on the placeholders as the specification has it, a
    placeholder being told by its text: in every run without concurrency,
    no more placeholders than pending chat calls. *)
Definition placeholdersBounded : Prop :=
  forall (evs : list Event) (w : World),
    run api evs mount = Some w ->
    sequential evs mount = true ->
    placeholders w <= outstandingChats w.

(** Where a run without concurrency stands: the calls are numbered, the
    transcript has [2 n + 1] bubbles, and either no chat call is pending
    and at most [e] bubbles read as the placeholder, or one chat call is
    pending, its placeholder is the last bubble and at most [e] bubbles
    before it read as the placeholder. *)
Definition chatPhase (n e : nat) (w : World) : Prop :=
  wellNumbered w
  /\ length (chatMessages (state w)) = 2 * n + 1
  /\ ((Forall (fun p => isChatCall p = false) (pending w)
       /\ placeholders w <= e)
      \/ (exists id q body,
            chatHeld id q (body ++ [thinkingMessage])%list w
            /\ length (filter isThinking body) <= e)).

(** *** Toast *)

(** [setNotification(message)] in a segment of its own. *)
Definition show (message : string) (w : World) : World :=
  dispatch [ setNotification (Some message) ] w.

(** The timer of the notification effect is the only pending timer, and
    while it is pending the notification [n] it was started for is shown. *)
Definition timedFor (n : option string) (w : World) : Prop :=
  match cleanup w with
  | Some id =>
      exists due m,
        timers w = [(id, due)] /\ id < nextTimer w
        /\ n = Some m /\ m <> ""
  | None => timers w = []
  end.

Definition toastTimed (w : World) : Prop :=
  timedFor (notification (state w)) w.

(** What the toast consists of: the notification, the pending timers, the
    next timer handle, the handle held by the cleanup, and the clock. *)
Definition toastView (w : World)
  : option string * list (nat * nat) * nat * option nat * nat :=
  (notification (state w), timers w, nextTimer w, cleanup w, clock w).

(** The message that [handleProcessResult] shows for a result. *)
Definition toastOfResult (company : string) (result : ProcessResult) : string :=
  if status result =? "success" then successToast company
  else errorToast company (errorOf result).

(** [show a], then [show b] some [ms] later and before the timer of [a]
    fired: [b] is shown, one timer is pending, it is a new one that is due
    a full 3000 ms after [show b], and when it fires the slot clears. *)
Definition toastReplaced (api : Service) (a b : string) (ms : nat) (w : World)
  : Prop :=
  let wa := show a w in
  let wb := show b (advance ms wa) in
  notification (state wb) = Some b
  /\ exists id,
       timers wb = [(id, clock wb + 3000)]
       /\ findTimer id (timers wa) = None
       /\ step api (advance 2999 wb) (Timeout id) = None
       /\ exists w3,
            step api (advance 3000 wb) (Timeout id) = Some w3
            /\ notification (state w3) = None
            /\ timers w3 = [].

(** *** Further notions *)

(** The transcript is the greeting of the first render followed by an even
    number of bubbles, and while a chat call is pending the greeting is not
    the last bubble. *)
Definition transcriptKept (w : World) : Prop :=
  exists rest,
    chatMessages (state w) = (chatMessages initialState ++ rest)%list
    /\ Nat.Even (length rest)
    /\ (0 < outstandingChats w -> rest <> []).

(** A notification on display is not the empty string. *)
Definition toastVisible (w : World) : Prop :=
  forall m, notification (state w) = Some m -> m <> "".

(** A notification on display has its timer: the only pending timer, held
    by the cleanup of the effect and due at most 3000 ms from now. *)
Definition toastLive (w : World) : Prop :=
  forall m,
    notification (state w) = Some m ->
    m <> "" ->
    exists id due,
      timers w = [(id, due)] /\ cleanup w = Some id /\ due <= clock w + 3000.

(** No error banner and no unhandled rejection. *)
Definition calm (w : World) : Prop :=
  error (state w) = None /\ unhandled w = [].

(** What each operation of [api] resolves to, case by case. *)
Definition listResult (net : FetchOutcome) : Value :=
  match net with
  | Responded (mkResponse true (Json v)) => JS.or v (Arr [])
  | _ => Arr []
  end.

Definition chatResult (net : FetchOutcome) : Value :=
  match net with
  | Responded (mkResponse true (Json Null)) => Str chatFallback
  | Responded (mkResponse true (Json body)) =>
      orElse (responseField body) (Str chatApology)
  | _ => Str chatFallback
  end.

Definition processResult (net : FetchOutcome) : ProcessResult :=
  match net with
  | Rejected e => Failure (message e)
  | Responded (mkResponse false _) => Failure "Failed to process result"
  | Responded (mkResponse true (BadJson e)) => Failure (message e)
  | Responded (mkResponse true (Json v)) => Success v
  end.

(** What an operation writes to the console: the error it absorbed, given
    the message [msg] of its own [throw] for a status that is not ok. *)
Definition logged (msg : string) (net : FetchOutcome) : list Error :=
  match net with
  | Rejected e => [e]
  | Responded (mkResponse false _) => [mkError "Error" msg]
  | Responded (mkResponse true (BadJson e)) => [e]
  | Responded (mkResponse true (Json _)) => []
  end.

(** The continuation of the loader of a resource. *)
Definition loadResume (r : Resource) (data : Completion Value) : list Cmd :=
  match r with
  | Upcoming => loadUpcomingResults_resume data
  | Latest => loadLatestResults_resume data
  end.

(** Sample worlds: a card was clicked twice and the first call was refused
    two seconds ago (the error toast is on display, the second call is
    pending); two questions were asked one after the other, with a visit to
    the latest tab in between, the first answered with the text of the
    placeholder, the second refused; two questions were asked before any
    answer came, then the request of the first was refused, and that world
    after the second was answered; a card was clicked once, the call was
    refused and the timer of the toast is due; and that world after the
    timer fired. *)
Definition refusedOnce : World :=
  Eval vm_compute in
    match run api [ ClickCard "Wipro" "WIPRO"; ClickCard "Wipro" "WIPRO";
                    Settle 1 (Responded (mkResponse false (Json Null)));
                    Tick 2000 ] mount with
    | Some w => w
    | None => mount
    end.

Definition chattedTwice : World :=
  Eval vm_compute in
    match run api
            [ ClickTab ChatTab; TypeChat "How did Wipro perform?"; SubmitChat;
              ClickTab LatestTab;
              Settle 1 (okBody (Obj [("response", Str "🤔 Analyzing...")]));
              ClickTab ChatTab; TypeChat "And Infosys?"; SubmitChat;
              Settle 3 (Rejected (mkError "TypeError" "Failed to fetch")) ]
            mount with
    | Some w => w
    | None => mount
    end.

Definition overlapRefused : World :=
  Eval vm_compute in
    match session api
            [ ClickTab ChatTab; TypeChat "How did Wipro perform?"; SubmitChat;
              TypeChat "And Infosys?"; SubmitChat;
              Settle 1 (Rejected (mkError "TypeError" "Failed to fetch")) ]
            mount with
    | Some w => w
    | None => mount
    end.

Definition overlapAnswered : World :=
  Eval vm_compute in
    match step api overlapRefused
            (Settle 2 (okBody (Obj [("response", Str "Infosys grew 4%.")])))
    with
    | Some w => w
    | None => mount
    end.

Definition toastDue : World :=
  Eval vm_compute in
    match run api [ ClickCard "Wipro" "WIPRO";
                    Settle 1 (Responded (mkResponse false (Json Null)));
                    Tick 3000 ] mount with
    | Some w => w
    | None => mount
    end.

Definition toastGone : World :=
  Eval vm_compute in
    match step api toastDue (Timeout 0) with
    | Some w => w
    | None => toastDue
    end.

(** ** The embedding at work *)

Example trim_ascii : trim "  How did Wipro perform?  " = "How did Wipro perform?".
Proof. reflexivity. Qed.

Example trim_blank : emptyStr (trim "    ") = true.
Proof. reflexivity. Qed.

Example mount_loads_calendar :
  activeTab (state mount) = "calendar"
  /\ loading (state mount) = true
  /\ pending mount = [(0, CallUpcoming)].
Proof. repeat split. Qed.

(** The upcoming list arrives, the user clicks the card of Wipro and the
    analysis succeeds. *)
Example processing_succeeds :
  exists w,
    session api
      [ Settle 0 (okBody (Arr [ Obj [ ("company_name", Str "Wipro");
                                       ("company_symbol", Str "WIPRO");
                                       ("result_date", Str "2025-01-15") ] ]));
        ClickCard "Wipro" "WIPRO";
        Settle 1 (okBody (Obj [("status", Str "done")])) ]
      mount = Some w
    /\ notification (state w) = Some "✅ Successfully processed Wipro results!"
    /\ activeTab (state w) = "latest"
    /\ processingCompany (state w) = None
    /\ pending w = [(2, CallLatest)]
    /\ timers w = [(0, 3000)].
Proof. eexists. split; [ vm_compute; reflexivity | repeat split ]. Qed.

(** The same click when the request times out. *)
Example processing_fails :
  exists w,
    session api
      [ Settle 0 (okBody (Arr [ Obj [ ("company_name", Str "Wipro");
                                       ("company_symbol", Str "WIPRO");
                                       ("result_date", Str "2025-01-15") ] ]));
        ClickCard "Wipro" "WIPRO";
        Settle 1 (Rejected (mkError "TypeError" "timeout")) ]
      mount = Some w
    /\ notification (state w) = Some "❌ Error processing Wipro: timeout"
    /\ activeTab (state w) = "calendar"
    /\ processingCompany (state w) = None
    /\ pending w = [].
Proof. eexists. split; [ vm_compute; reflexivity | repeat split ]. Qed.

(** A question is submitted on the chat tab and answered. *)
Example chat_answered :
  exists w1 w2,
    session api
      [ ClickTab ChatTab; TypeChat "How did Wipro perform?"; SubmitChat ]
      mount = Some w1
    /\ chatMessages (state w1)
       = (chatMessages initialState
          ++ [ mkMsg "user" (Str "How did Wipro perform?"); thinkingMessage ])%list
    /\ chatInput (state w1) = ""
    /\ session api [ Settle 1 (okBody (Obj [("response", Str "Revenue grew.")])) ]
         w1 = Some w2
    /\ chatMessages (state w2)
       = (chatMessages initialState
          ++ [ mkMsg "user" (Str "How did Wipro perform?");
               mkMsg "bot" (Str "Revenue grew.") ])%list.
Proof.
  eexists. eexists. split; [ vm_compute; reflexivity | ].
  split; [ reflexivity | ]. split; [ reflexivity | ].
  split; [ vm_compute; reflexivity | reflexivity ].
Qed.

(** ** The API service never throws *)

Lemma sameNotification_refl (n : option string) : sameNotification n n = true.
Proof. destruct n as [s|]; simpl; [apply String.eqb_refl | reflexivity]. Qed.

Lemma sameNotification_eq (a b : option string) :
  sameNotification a b = true -> a = b.
Proof.
  destruct a as [x|], b as [y|]; simpl; try discriminate; try reflexivity.
  intros H. apply String.eqb_eq in H. now subst.
Qed.

(** C3. None of the four operations of [api] throws or rejects, whatever
    the network does; and when the request fails ([fetch] rejects with any
    error [e], or the response is not ok, whatever its body) the two list
    operations resolve to the empty array, [sendChatMessage] to its fixed
    error string and [triggerResultProcessing] to an error-tagged result
    that carries the message of the error. *)
Theorem api_never_throws
    (net : FetchOutcome) (question company ticker : string)
    (e : Error) (body : JsonBody) :
  ((exists v, fetchUpcomingResults net = Normal v)
   /\ (exists v, fetchLatestResults net = Normal v)
   /\ (exists v, sendChatMessage question net = Normal v)
   /\ (exists r, triggerResultProcessing company ticker net = Normal r))
  /\ (fetchUpcomingResults (Rejected e) = Normal (Arr [])
      /\ fetchUpcomingResults (Responded (mkResponse false body)) = Normal (Arr []))
  /\ (fetchLatestResults (Rejected e) = Normal (Arr [])
      /\ fetchLatestResults (Responded (mkResponse false body)) = Normal (Arr []))
  /\ (sendChatMessage question (Rejected e) = Normal (Str chatFallback)
      /\ sendChatMessage question (Responded (mkResponse false body))
         = Normal (Str chatFallback))
  /\ (triggerResultProcessing company ticker (Rejected e)
      = Normal (Failure (message e))
      /\ triggerResultProcessing company ticker (Responded (mkResponse false body))
         = Normal (Failure "Failed to process result")).
Proof.
  split; [ | repeat split; reflexivity ].
  destruct net as [err | [[|] [bad | v]]]; cbn.
  all: repeat split; try (eexists; reflexivity).
  destruct v; cbn; eexists; reflexivity.
Qed.

(** A body that is not [null] can be read: the property access yields the
    field of the specification's wording. *)
Lemma getProp_response (body : Value) :
  body <> Null -> getProp body "response" = Normal (responseField body).
Proof. destruct body; intros H; try reflexivity. now elim H. Qed.

(** C10, as the code has it.  When [/chat] answers with an ok status and
    the parsed body is not [null] and has no truthy [response] field,
    [sendChatMessage] resolves to the apology; the apology differs from the
    string returned when the request fails (rejection or status not ok). *)
Theorem chat_apology_on_malformed_body
    (question : string) (body : Value) (e : Error) (other : JsonBody)
    (Hbody : body <> Null) (Hfield : missingOrFalsy body = true) :
  sendChatMessage question (okBody body) = Normal (Str chatApology)
  /\ chatApology <> chatFallback
  /\ sendChatMessage question (Rejected e) = Normal (Str chatFallback)
  /\ sendChatMessage question (Responded (mkResponse false other))
     = Normal (Str chatFallback).
Proof.
  split; [ | split; [ discriminate | split; reflexivity ] ].
  unfold sendChatMessage, sendChatMessage_body, okBody. cbn.
  rewrite (getProp_response body Hbody). cbn.
  unfold missingOrFalsy in Hfield.
  destruct (responseField body) as [v|]; cbn; [ | reflexivity ].
  unfold JS.or. apply negb_true_iff in Hfield. now rewrite Hfield.
Qed.

Lemma chat_apology_on_malformed_body_witness :
  sendChatMessage "How did Wipro perform?" (okBody (Obj [("detail", Str "?")]))
  = Normal (Str chatApology).
Proof.
  apply (chat_apology_on_malformed_body "How did Wipro perform?"
           (Obj [("detail", Str "?")]) (mkError "TypeError" "Failed to fetch")
           (Json Null)).
  - discriminate.
  - reflexivity.
Defined.

(** C10, as stated, fails on the body [null]: it has no [response] field,
    reading the field throws, the [catch] answers with the string of a
    failed request, and the caller cannot tell the two apart. *)
Lemma chat_null_body_counterexample :
  missingOrFalsy Null = true
  /\ sendChatMessage "How did Wipro perform?" (okBody Null)
     = Normal (Str chatFallback)
  /\ ~ malformedYieldsApology.
Proof.
  split; [ reflexivity | split; [ reflexivity | ] ].
  intros H. specialize (H "How did Wipro perform?" Null eq_refl).
  discriminate H.
Qed.

(** ** Segments, commits and the frame of the effects *)

Lemma commit_unchanged (old : State) (w : World) :
  activeTab old = activeTab (state w) ->
  notification old = notification (state w) ->
  commit old w = w.
Proof.
  intros Ht Hn. unfold commit.
  rewrite Ht, String.eqb_refl, Hn. now rewrite sameNotification_refl.
Qed.

Lemma findCall_fresh (id : nat) (l : list (nat * ApiCall)) (c : ApiCall) :
  Forall (fun p => fst p < id) l ->
  findCall id l = None /\ findCall id (l ++ [(id, c)]) = Some c.
Proof.
  induction 1 as [| [i c'] l Hlt _ [IH1 IH2]]; simpl.
  - now rewrite Nat.eqb_refl.
  - simpl in Hlt. destruct (Nat.eqb_spec i id); [ lia | now split ].
Qed.

Section ProcessingFacts.

Variable api : Service.

(** C4. The processing slot is one optional company name.  From any world,
    [run(X)] puts [X] in the slot and starts its call; [run(Y)] while the
    call of [X] is pending puts [Y] in the slot instead, and afterwards the
    calls of both are pending, next to whatever was pending before. *)
Theorem processing_slot_overwritten
    (w : World) (x tx y ty : string) :
  let w1 := dispatch (handleProcessResult x tx) w in
  let w2 := dispatch (handleProcessResult y ty) w1 in
  step api w (ClickCard x tx) = Some w1
  /\ processingCompany (state w1) = Some x
  /\ pending w1 = (pending w ++ [(nextCall w, CallProcess x tx)])%list
  /\ step api w1 (ClickCard y ty) = Some w2
  /\ processingCompany (state w2) = Some y
  /\ pending w2
     = (pending w ++ [(nextCall w, CallProcess x tx);
                      (S (nextCall w), CallProcess y ty)])%list.
Proof.
  cbv zeta. unfold step, dispatch, handleProcessResult.
  cbn [exec fold_left exec1 setState state].
  rewrite !commit_unchanged by reflexivity.
  cbn. rewrite <- app_assoc. repeat split; reflexivity.
Qed.

End ProcessingFacts.

(** *** What a segment and its commit start *)

Lemma numbered_app (n : nat) (a b : list ApiCall) :
  numbered n (a ++ b) = (numbered n a ++ numbered (n + length a) b)%list.
Proof.
  revert n. induction a as [| c a IH]; intros n; simpl.
  - now rewrite Nat.add_0_r.
  - rewrite IH. now rewrite Nat.add_succ_r.
Qed.

Lemma numbered_bounds (n : nat) (calls : list ApiCall) :
  Forall (fun p => n <= fst p < n + length calls) (numbered n calls).
Proof.
  revert n. induction calls as [| c calls IH]; intros n; simpl; constructor.
  - simpl. lia.
  - eapply Forall_impl; [ | apply IH ]. simpl. intros p Hp. lia.
Qed.

Lemma exec_calls (cmds : list Cmd) (w : World) :
  pending (exec cmds w)
  = (pending w ++ numbered (nextCall w) (awaits cmds))%list
  /\ nextCall (exec cmds w) = nextCall w + length (awaits cmds).
Proof.
  revert w. induction cmds as [| c cmds IH]; intros w.
  - simpl. now rewrite app_nil_r, Nat.add_0_r.
  - unfold exec in *. simpl fold_left.
    destruct (IH (exec1 w c)) as [IHp IHn]. rewrite IHp, IHn.
    destruct c; simpl; try (split; reflexivity).
    rewrite <- app_assoc. simpl. split; [ reflexivity | lia ].
Qed.

Lemma exec_environment (cmds : list Cmd) (w : World) :
  timers (exec cmds w) = timers w
  /\ nextTimer (exec cmds w) = nextTimer w
  /\ cleanup (exec cmds w) = cleanup w
  /\ clock (exec cmds w) = clock w
  /\ unhandled (exec cmds w) = unhandled w.
Proof.
  revert w. induction cmds as [| c cmds IH]; intros w.
  - repeat split.
  - unfold exec in *. simpl fold_left.
    destruct (IH (exec1 w c)) as (H1 & H2 & H3 & H4 & H5).
    rewrite H1, H2, H3, H4, H5. destruct c; repeat split.
Qed.

Lemma effect_frame (w : World) :
  state (notificationEffect w) = state w
  /\ pending (notificationEffect w) = pending w
  /\ nextCall (notificationEffect w) = nextCall w
  /\ unhandled (notificationEffect w) = unhandled w
  /\ clock (notificationEffect w) = clock w.
Proof.
  unfold notificationEffect.
  destruct (notification (state w)) as [m|]; [ destruct (emptyStr m) | ];
    repeat split.
Qed.

Lemma cleanup_frame (w : World) :
  state (notificationCleanup w) = state w
  /\ pending (notificationCleanup w) = pending w
  /\ nextCall (notificationCleanup w) = nextCall w
  /\ unhandled (notificationCleanup w) = unhandled w
  /\ clock (notificationCleanup w) = clock w.
Proof. unfold notificationCleanup. destruct (cleanup w); repeat split. Qed.

Lemma sameData_refl (s : State) : sameData s s.
Proof. repeat split. Qed.

Lemma tabEffect_frame (s : State) (w : World) :
  sameData (state w) (state (exec (tabEffect s) w))
  /\ awaits (tabEffect s) = loadOnEntry (activeTab s).
Proof.
  unfold tabEffect, loadOnEntry.
  destruct (activeTab s =? "calendar");
    [ | destruct (activeTab s =? "latest") ];
    split; try reflexivity; repeat split.
Qed.

(** The effects that a commit runs leave the data of the hooks alone; they
    start the load of the tab exactly when the tab changed. *)
Lemma commit_frame (old : State) (w : World) :
  sameData (state w) (state (commit old w))
  /\ unhandled (commit old w) = unhandled w
  /\ clock (commit old w) = clock w
  /\ pending (commit old w)
     = (pending w
        ++ numbered (nextCall w)
             (if activeTab old =? activeTab (state w) then []
              else loadOnEntry (activeTab (state w))))%list
  /\ nextCall (commit old w)
     = nextCall w
       + length (if activeTab old =? activeTab (state w) then []
                 else loadOnEntry (activeTab (state w))).
Proof.
  unfold commit.
  set (loads := if activeTab old =? activeTab (state w) then []
                else loadOnEntry (activeTab (state w))).
  set (w1 := if activeTab old =? activeTab (state w) then w
             else exec (tabEffect (state w)) w).
  assert (H1 : sameData (state w) (state w1)
               /\ unhandled w1 = unhandled w /\ clock w1 = clock w
               /\ pending w1 = (pending w ++ numbered (nextCall w) loads)%list
               /\ nextCall w1 = nextCall w + length loads).
  { subst w1 loads. destruct (activeTab old =? activeTab (state w)).
    - cbn. rewrite app_nil_r, Nat.add_0_r.
      split; [ apply sameData_refl | repeat split ].
    - destruct (tabEffect_frame (state w) w) as [Hd Ha].
      destruct (exec_calls (tabEffect (state w)) w) as [Hp Hn].
      destruct (exec_environment (tabEffect (state w)) w)
        as (_ & _ & _ & Hc & Hu).
      rewrite Hp, Hn, Ha. repeat split; try assumption; apply Hd. }
  clearbody w1 loads. destruct H1 as (Hd & Hu & Hc & Hp & Hn).
  destruct (sameNotification (notification old) (notification (state w1))).
  - repeat split; try assumption; apply Hd.
  - destruct (effect_frame (notificationCleanup w1)) as (E1 & E2 & E3 & E4 & E5).
    destruct (cleanup_frame w1) as (C1 & C2 & C3 & C4 & C5).
    rewrite E1, E2, E3, E4, E5, C1, C2, C3, C4, C5.
    repeat split; try assumption; apply Hd.
Qed.

Section WorkflowFacts.

Variable api : Service.

(** C1. [run(company, ticker)] is the segment that sets the processing slot
    to [company] and then starts [api.triggerResultProcessing]; after it the
    slot holds [company] and the call is pending.  When the call later
    settles (in any world [w'] where it is still pending): on a result with
    status success the notification is the text
    "✅ Successfully processed {company} results!", the slot is cleared and
    the active tab is [latest]; on a result with status error the
    notification is the text "❌ Error processing {company}: {error}", the
    slot is cleared and the active tab is the one of [w'].  (Were the call
    to throw, nothing would be written and the rejection would go
    unhandled.) *)
Theorem processing_workflow
    (company ticker : string) (w w' : World) (id : nat) (net : FetchOutcome)
    (Hpending : findCall id (pending w') = Some (CallProcess company ticker)) :
  handleProcessResult company ticker
  = [ setProcessingCompany (Some company); await (CallProcess company ticker) ]
  /\ (exists w1,
        step api w (ClickCard company ticker) = Some w1
        /\ processingCompany (state w1) = Some company
        /\ pending w1
           = (pending w ++ [(nextCall w, CallProcess company ticker)])%list)
  /\ exists w2,
       step api w' (Settle id net) = Some w2
       /\ match svc_triggerResultProcessing api company ticker net with
          | Normal (Success _) =>
              notification (state w2)
              = Some ("✅ Successfully processed " ++ company ++ " results!")
              /\ processingCompany (state w2) = None
              /\ activeTab (state w2) = "latest"
          | Normal (Failure error) =>
              notification (state w2)
              = Some ("❌ Error processing " ++ company ++ ": " ++ error)
              /\ processingCompany (state w2) = None
              /\ activeTab (state w2) = activeTab (state w')
          | Throw e =>
              state w2 = state w'
              /\ unhandled w2 = (unhandled w' ++ [e])%list
          end.
Proof.
  split; [ reflexivity | split ].
  - eexists. split; [ reflexivity | ].
    unfold dispatch, handleProcessResult.
    cbn [exec fold_left exec1 setState state].
    rewrite commit_unchanged by reflexivity. split; reflexivity.
  - unfold step. rewrite Hpending. eexists. split; [ reflexivity | ].
    unfold resume.
    destruct (svc_triggerResultProcessing api company ticker net)
      as [[data | error] | e]; cbn -[commit].
    + unfold dispatch.
      match goal with
      | |- context [commit ?old ?x] =>
          destruct (commit_frame old x) as [(Ht & _ & _ & _ & _ & Hp & Hn) _]
      end.
      rewrite Hn, Hp, Ht. repeat split; reflexivity.
    + unfold dispatch.
      match goal with
      | |- context [commit ?old ?x] =>
          destruct (commit_frame old x) as [(Ht & _ & _ & _ & _ & Hp & Hn) _]
      end.
      rewrite Hn, Hp, Ht. repeat split; reflexivity.
    + unfold dispatch. cbn [exec fold_left].
      rewrite commit_unchanged by reflexivity. split; reflexivity.
Qed.

(** C5. When the call of a load settles: if the bound fetch function
    resolved to [data], the list of that resource is exactly [data] (the
    previous list is gone) and no error is set by the load; if it rejected,
    [error] is the failure text of the load and the list is the one from
    before.  Either way the load ends ([loading] is false), the list of the
    other resource is untouched and nothing is thrown on. *)
Theorem load_snapshot
    (r : Resource) (w : World) (id : nat) (net : FetchOutcome)
    (Hpending : findCall id (pending w) = Some (loaderCall r)) :
  exists w',
    step api w (Settle id net) = Some w'
    /\ loading (state w') = false
    /\ unhandled w' = unhandled w
    /\ (forall r', r' <> r -> stored r' (state w') = stored r' (state w))
    /\ match boundFetch api r net with
       | Normal data =>
           stored r (state w') = data /\ error (state w') = error (state w)
       | Throw _ =>
           error (state w') = Some (loadFailure r)
           /\ stored r (state w') = stored r (state w)
       end.
Proof.
  unfold step. rewrite Hpending. eexists. split; [ reflexivity | ].
  destruct r; cbn [loaderCall resume boundFetch].
  - destruct (svc_fetchUpcomingResults api net) as [data | e];
      unfold dispatch; cbn [loadUpcomingResults_resume app exec fold_left];
      rewrite commit_unchanged by reflexivity; cbn;
      (repeat split; try reflexivity);
      intros [] Hr; try reflexivity; now elim Hr.
  - destruct (svc_fetchLatestResults api net) as [data | e];
      unfold dispatch; cbn [loadLatestResults_resume app exec fold_left];
      rewrite commit_unchanged by reflexivity; cbn;
      (repeat split; try reflexivity);
      intros [] Hr; try reflexivity; now elim Hr.
Qed.

End WorkflowFacts.

Lemma processing_workflow_witness :
  exists w2,
    step api (dispatch (handleProcessResult "Wipro" "WIPRO") mount)
      (Settle 1 (okBody (Obj [("status", Str "done")]))) = Some w2
    /\ notification (state w2)
       = Some "✅ Successfully processed Wipro results!"
    /\ processingCompany (state w2) = None
    /\ activeTab (state w2) = "latest".
Proof.
  destruct (processing_workflow api "Wipro" "WIPRO" mount
              (dispatch (handleProcessResult "Wipro" "WIPRO") mount) 1
              (okBody (Obj [("status", Str "done")])) eq_refl)
    as (_ & _ & w2 & Hstep & Hres).
  exists w2. split; [ exact Hstep | exact Hres ].
Defined.

Lemma load_snapshot_witness :
  exists w',
    step rejectingService mount (Settle 0 (okBody (Arr []))) = Some w'
    /\ loading (state w') = false
    /\ error (state w') = Some "Failed to load upcoming results"
    /\ upcomingResults (state w') = upcomingResults (state mount).
Proof.
  destruct (load_snapshot rejectingService Upcoming mount 0
              (okBody (Arr [])) eq_refl)
    as (w' & Hstep & Hload & _ & _ & Herr & Hkept).
  exists w'. repeat split; assumption.
Defined.

(** The same load with the real [api] when the request succeeds: the list
    becomes what the server sent. *)
Lemma load_snapshot_example :
  exists w',
    step api mount
      (Settle 0 (okBody (Arr [ Obj [ ("company_name", Str "Wipro");
                                     ("company_symbol", Str "WIPRO");
                                     ("result_date", Str "2025-01-15") ] ])))
    = Some w'
    /\ upcomingResults (state w')
       = Arr [ Obj [ ("company_name", Str "Wipro");
                     ("company_symbol", Str "WIPRO");
                     ("result_date", Str "2025-01-15") ] ]
    /\ cards (state w') = [("Wipro", "WIPRO")]
    /\ loading (state w') = false.
Proof. eexists. split; [ vm_compute; reflexivity | repeat split ]. Qed.

(** ** Numbering of the pending calls *)

(** The calls that a dispatched segment starts: its own, then the load of
    the tab when the segment changed the tab. *)
Lemma dispatch_calls (cmds : list Cmd) (w : World) :
  let loads :=
    if activeTab (state w) =? activeTab (state (exec cmds w)) then []
    else loadOnEntry (activeTab (state (exec cmds w))) in
  pending (dispatch cmds w)
  = (pending w ++ numbered (nextCall w) (awaits cmds ++ loads))%list
  /\ nextCall (dispatch cmds w) = nextCall w + length (awaits cmds ++ loads).
Proof.
  cbv zeta. unfold dispatch.
  destruct (commit_frame (state w) (exec cmds w)) as (_ & _ & _ & Hp & Hn).
  destruct (exec_calls cmds w) as [Ep En].
  rewrite Hp, Hn, Ep, En, numbered_app, length_app.
  split; [ now rewrite app_assoc | lia ].
Qed.

Lemma wellNumbered_dispatch (cmds : list Cmd) (w : World) :
  wellNumbered w -> wellNumbered (dispatch cmds w).
Proof.
  unfold wellNumbered. intros H.
  destruct (dispatch_calls cmds w) as [Hp Hn]. rewrite Hp, Hn.
  apply Forall_app. split.
  - eapply Forall_impl; [ | exact H ]. simpl. intros p Hlt. lia.
  - eapply Forall_impl; [ | apply numbered_bounds ]. simpl. intros p Hlt. lia.
Qed.

Lemma wellNumbered_settled (id : nat) (w : World) :
  wellNumbered w -> wellNumbered (settled id w).
Proof.
  unfold wellNumbered, settled. cbn. intros H.
  apply Forall_forall. intros p Hin. apply filter_In in Hin.
  rewrite Forall_forall in H. now apply H.
Qed.

Lemma wellNumbered_reject (e : option Error) (w : World) :
  wellNumbered w -> wellNumbered (reject e w).
Proof. destruct e; intros H; exact H. Qed.

Lemma wellNumbered_mount : wellNumbered mount.
Proof. unfold wellNumbered. cbn. repeat constructor. Qed.

Section Numbering.

Variable api : Service.

Lemma wellNumbered_step (w w' : World) (ev : Event) :
  wellNumbered w -> step api w ev = Some w' -> wellNumbered w'.
Proof.
  intros H Hstep. destruct ev; cbn in Hstep.
  1-6: injection Hstep as <-; now apply wellNumbered_dispatch.
  - destruct (findCall id (pending w)) as [call|]; [ | discriminate ].
    injection Hstep as <-.
    apply (wellNumbered_settled id) in H.
    destruct call; cbn.
    + now apply wellNumbered_dispatch.
    + now apply wellNumbered_dispatch.
    + destruct (handleChatSubmit_resume _) as [cmds e].
      apply wellNumbered_reject. now apply wellNumbered_dispatch.
    + destruct (handleProcessResult_resume _ _) as [cmds e].
      apply wellNumbered_reject. now apply wellNumbered_dispatch.
  - destruct (findTimer id (timers w)) as [due|]; [ | discriminate ].
    destruct (Nat.leb due (clock w)); [ | discriminate ].
    injection Hstep as <-. apply wellNumbered_dispatch. exact H.
  - injection Hstep as <-. exact H.
Qed.

Lemma wellNumbered_run (evs : list Event) (w w' : World) :
  wellNumbered w -> run api evs w = Some w' -> wellNumbered w'.
Proof.
  revert w. induction evs as [| ev evs IH]; intros w H Hrun; simpl in Hrun.
  - now injection Hrun as <-.
  - destruct (step api w ev) as [w1|] eqn:Hstep; [ | discriminate ].
    eapply IH; [ | exact Hrun ]. eapply wellNumbered_step; eassumption.
Qed.

End Numbering.

(** ** Tabs *)

Lemma map_snd_numbered (n : nat) (calls : list ApiCall) :
  map snd (numbered n calls) = calls.
Proof.
  revert n. induction calls as [| c calls IH]; intros n; simpl;
    [ reflexivity | now rewrite IH ].
Qed.

Lemma filter_all {A} (f : A -> bool) (l : list A) :
  Forall (fun x => f x = true) l -> filter f l = l.
Proof. induction 1 as [| x l Hx _ IH]; simpl; [ | rewrite Hx, IH ]; reflexivity. Qed.

Lemma filter_none {A} (f : A -> bool) (l : list A) :
  Forall (fun x => f x = false) l -> filter f l = [].
Proof. induction 1 as [| x l Hx _ IH]; simpl; [ | rewrite Hx, IH ]; reflexivity. Qed.

(** The calls started by a segment dispatched in a world [w0] that has the
    hook state and the numbering of [w] and pending calls of [w] only. *)
Lemma started_dispatch (cmds : list Cmd) (w w0 : World) :
  Forall (fun p => fst p < nextCall w) (pending w0) ->
  nextCall w0 = nextCall w ->
  started w (dispatch cmds w0)
  = (awaits cmds
     ++ (if activeTab (state w0) =? activeTab (state (exec cmds w0)) then []
         else loadOnEntry (activeTab (state (exec cmds w0)))))%list.
Proof.
  intros Hold Hn. unfold started.
  destruct (dispatch_calls cmds w0) as [Hp _]. rewrite Hp, Hn.
  rewrite filter_app, map_app, filter_none, filter_all, map_snd_numbered.
  - reflexivity.
  - eapply Forall_impl; [ | apply numbered_bounds ]. simpl. intros p Hp'.
    apply Nat.leb_le. lia.
  - eapply Forall_impl; [ | exact Hold ]. simpl. intros p Hp'.
    apply Nat.leb_gt. exact Hp'.
Qed.

Lemma activeTab_dispatch (cmds : list Cmd) (w : World) :
  activeTab (state (dispatch cmds w)) = activeTab (state (exec cmds w)).
Proof.
  unfold dispatch.
  now destruct (commit_frame (state w) (exec cmds w)) as ((H & _) & _).
Qed.

Lemma started_reject (e : option Error) (w w' : World) :
  started w (reject e w') = started w w'.
Proof. now destruct e. Qed.

Lemma state_reject (e : option Error) (w : World) :
  state (reject e w) = state w.
Proof. now destruct e. Qed.

Lemma tab_id_known (b : TabButton) :
  In (tab_id b) ["calendar"; "latest"; "chat"].
Proof. destruct b; simpl; auto. Qed.

Section TabFacts.

Variable api : Service.

(** What one turn of the event loop does to the active tab and which calls
    it starts when the tab changes. *)
Lemma tab_step (w w' : World) (ev : Event) :
  wellNumbered w ->
  step api w ev = Some w' ->
  (activeTab (state w') = activeTab (state w)
   \/ (In (activeTab (state w')) ["calendar"; "latest"; "chat"]
       /\ started w w' = loadOnEntry (activeTab (state w')))).
Proof.
  intros Hnum Hstep. destruct ev; cbn in Hstep.
  - (* ClickTab *)
    injection Hstep as <-. rewrite activeTab_dispatch.
    rewrite started_dispatch by (exact Hnum || reflexivity). cbn.
    destruct (activeTab (state w) =? tab_id b) eqn:E.
    + left. apply String.eqb_eq in E. now rewrite E.
    + right. split; [ apply tab_id_known | reflexivity ].
  - (* ClickRefresh *)
    injection Hstep as <-. left. rewrite activeTab_dispatch.
    now destruct (activeTab (state w) =? "calendar").
  - injection Hstep as <-. left. now rewrite activeTab_dispatch.
  - injection Hstep as <-. left. now rewrite activeTab_dispatch.
  - injection Hstep as <-. left. now rewrite activeTab_dispatch.
  - (* SubmitChat *)
    injection Hstep as <-. left. rewrite activeTab_dispatch.
    unfold handleChatSubmit.
    now destruct (emptyStr (trim (chatInput (state w)))).
  - (* Settle *)
    destruct (findCall id (pending w)) as [call|]; [ | discriminate ].
    injection Hstep as <-.
    assert (Hold : Forall (fun p => fst p < nextCall w) (pending (settled id w)))
      by (apply (wellNumbered_settled id) in Hnum; exact Hnum).
    destruct call; cbn.
    + left. rewrite activeTab_dispatch.
      now destruct (svc_fetchUpcomingResults api net).
    + left. rewrite activeTab_dispatch.
      now destruct (svc_fetchLatestResults api net).
    + left. destruct (svc_sendChatMessage api question net); cbn;
        now rewrite activeTab_dispatch.
    + destruct (svc_triggerResultProcessing api company ticker net)
        as [[data | error] | e]; cbn.
      * rewrite activeTab_dispatch, started_dispatch by (exact Hold || reflexivity).
        cbn. destruct (activeTab (state w) =? "latest") eqn:E.
        -- left. apply String.eqb_eq in E. now rewrite E.
        -- right. split; [ simpl; auto | reflexivity ].
      * left. now rewrite activeTab_dispatch.
      * left. now rewrite activeTab_dispatch.
  - (* Timeout *)
    destruct (findTimer id (timers w)) as [due|]; [ | discriminate ].
    destruct (Nat.leb due (clock w)); [ | discriminate ].
    injection Hstep as <-. left. now rewrite activeTab_dispatch.
  - injection Hstep as <-. now left.
Qed.

Lemma tab_known_run (evs : list Event) (w w' : World) :
  wellNumbered w ->
  In (activeTab (state w)) ["calendar"; "latest"; "chat"] ->
  run api evs w = Some w' ->
  In (activeTab (state w')) ["calendar"; "latest"; "chat"].
Proof.
  revert w. induction evs as [| ev evs IH]; intros w Hnum Hin Hrun;
    simpl in Hrun.
  - now injection Hrun as <-.
  - destruct (step api w ev) as [w1|] eqn:Hstep; [ | discriminate ].
    apply (IH w1); [ eapply wellNumbered_step; eassumption | | exact Hrun ].
    destruct (tab_step w w1 ev Hnum Hstep) as [Hsame | [Hknown _]];
      [ now rewrite Hsame | exact Hknown ].
Qed.

(** C8. The active tab starts as [calendar] (and mounting starts the load
    of the upcoming results); in every world the dashboard can reach it is
    one of [calendar], [latest], [chat]; clicking a tab button always sets
    the active tab to that tab; and whenever a turn of the event loop
    changes the active tab, the calls it starts are exactly the load of the
    entered tab: [fetchUpcomingResults] for [calendar], [fetchLatestResults]
    for [latest], none for [chat]. *)
Theorem tab_controller
    (evs : list Event) (w w' : World) (ev : Event) (b : TabButton)
    (Hreach : run api evs mount = Some w)
    (Hstep : step api w ev = Some w') :
  activeTab initialState = "calendar"
  /\ pending mount = [(0, CallUpcoming)]
  /\ In (activeTab (state w)) ["calendar"; "latest"; "chat"]
  /\ (exists w2,
        step api w (ClickTab b) = Some w2
        /\ activeTab (state w2) = tab_id b)
  /\ (activeTab (state w') = activeTab (state w)
      \/ started w w' = loadOnEntry (activeTab (state w')))
  /\ loadOnEntry "calendar" = [CallUpcoming]
  /\ loadOnEntry "latest" = [CallLatest]
  /\ loadOnEntry "chat" = [].
Proof.
  assert (Hnum : wellNumbered w)
    by (eapply wellNumbered_run; [ apply wellNumbered_mount | exact Hreach ]).
  split; [ reflexivity | split; [ reflexivity | split ] ].
  - eapply tab_known_run; [ apply wellNumbered_mount | | exact Hreach ].
    simpl; auto.
  - split.
    + eexists. split; [ reflexivity | ]. now rewrite activeTab_dispatch.
    + split; [ | repeat split ].
      destruct (tab_step w w' ev Hnum Hstep) as [Hsame | [_ Hload]];
        [ now left | now right ].
Qed.

End TabFacts.

Lemma tab_controller_witness :
  started (dispatch [ setActiveTab "chat" ] mount)
    (dispatch [ setActiveTab "latest" ] (dispatch [ setActiveTab "chat" ] mount))
  = [CallLatest].
Proof.
  destruct (tab_controller api [ ClickTab ChatTab ]
              (dispatch [ setActiveTab "chat" ] mount)
              (dispatch [ setActiveTab "latest" ]
                 (dispatch [ setActiveTab "chat" ] mount))
              (ClickTab LatestTab) CalendarTab eq_refl eq_refl)
    as (_ & _ & _ & _ & [Hsame | Hload] & _).
  - vm_compute in Hsame. discriminate Hsame.
  - exact Hload.
Defined.

(** ** Chat *)

Lemma sendChatMessage_total (q : string) (net : FetchOutcome) :
  exists a, sendChatMessage q net = Normal a.
Proof.
  destruct net as [err | [[|] [bad | v]]]; cbn; try (eexists; reflexivity).
  destruct v; cbn; eexists; reflexivity.
Qed.

Lemma sendChatMessage_failed (q : string) (net : FetchOutcome) :
  failedRequest net = true -> sendChatMessage q net = Normal (Str chatFallback).
Proof.
  destruct net as [err | [[|] body]]; cbn; intros H;
    [ reflexivity | discriminate | reflexivity ].
Qed.

Lemma findCall_In (id : nat) (l : list (nat * ApiCall)) (c : ApiCall) :
  findCall id l = Some c -> In (id, c) l.
Proof.
  induction l as [| [i c'] l IH]; simpl; [ discriminate | ].
  destruct (Nat.eqb_spec i id) as [-> | _].
  - intros [= ->]. now left.
  - intros H. right. now apply IH.
Qed.

Lemma findCall_app_found (id : nat) (l l' : list (nat * ApiCall)) (c : ApiCall) :
  findCall id l = Some c -> findCall id (l ++ l') = Some c.
Proof.
  induction l as [| [i c'] l IH]; simpl; [ discriminate | ].
  destruct (Nat.eqb i id); [ trivial | exact IH ].
Qed.

Lemma findCall_filter_other (id i : nat) (l : list (nat * ApiCall)) :
  i <> id ->
  findCall id (filter (fun p => negb (Nat.eqb (fst p) i)) l) = findCall id l.
Proof.
  intros Hne. induction l as [| [j c] l IH]; simpl; [ reflexivity | ].
  destruct (Nat.eqb_spec j i) as [-> | Hji]; simpl.
  - destruct (Nat.eqb_spec i id); [ contradiction | exact IH ].
  - now rewrite IH.
Qed.

Lemma chatMessages_dispatch (cmds : list Cmd) (w : World) :
  chatMessages (state (dispatch cmds w)) = chatMessages (state (exec cmds w)).
Proof.
  unfold dispatch.
  now destruct (commit_frame (state w) (exec cmds w))
    as ((_ & _ & _ & _ & H & _) & _).
Qed.

Lemma loadOnEntry_not_chat (tab : string) :
  Forall (fun c => chatCall c = false) (loadOnEntry tab).
Proof.
  unfold loadOnEntry.
  destruct (tab =? "calendar"); [ | destruct (tab =? "latest") ];
    repeat constructor.
Qed.

Lemma numbered_not_chat (n : nat) (calls : list ApiCall) :
  Forall (fun c => chatCall c = false) calls ->
  Forall (fun p => isChatCall p = false) (numbered n calls).
Proof.
  intros H. revert n. induction H as [| c calls Hc _ IH]; intros n; simpl;
    constructor; [ exact Hc | apply IH ].
Qed.

(** A segment that leaves the transcript alone and starts no chat call
    keeps the chat as it is held. *)
Lemma held_dispatch (id : nat) (q : string) (msgs : list ChatMessage)
    (cmds : list Cmd) (w : World) :
  chatHeld id q msgs w ->
  chatMessages (state (exec cmds w)) = chatMessages (state w) ->
  Forall (fun c => chatCall c = false) (awaits cmds) ->
  chatHeld id q msgs (dispatch cmds w).
Proof.
  intros (Hm & Hf & Honly) Hsame Hcalls.
  destruct (dispatch_calls cmds w) as [Hp _].
  unfold chatHeld. rewrite chatMessages_dispatch, Hsame, Hp.
  split; [ exact Hm | split; [ now apply findCall_app_found | ] ].
  intros p Hin Hchat. apply in_app_or in Hin. destruct Hin as [Hin | Hin].
  - now apply Honly.
  - exfalso.
    assert (Hall : Forall (fun p => isChatCall p = false)
                     (numbered (nextCall w)
                        (awaits cmds ++
                         (if activeTab (state w) =? activeTab (state (exec cmds w))
                          then [] else loadOnEntry (activeTab (state (exec cmds w))))))).
    { apply numbered_not_chat, Forall_app. split; [ exact Hcalls | ].
      destruct (activeTab (state w) =? activeTab (state (exec cmds w)));
        [ constructor | apply loadOnEntry_not_chat ]. }
    rewrite Forall_forall in Hall. specialize (Hall p Hin). congruence.
Qed.

Lemma held_settled (id i : nat) (q : string) (msgs : list ChatMessage)
    (w : World) :
  i <> id -> chatHeld id q msgs w -> chatHeld id q msgs (settled i w).
Proof.
  intros Hne (Hm & Hf & Honly). unfold chatHeld, settled. cbn.
  split; [ exact Hm | split ].
  - now rewrite findCall_filter_other.
  - intros p Hin. apply filter_In in Hin. now apply Honly.
Qed.

Lemma held_reject (id : nat) (q : string) (msgs : list ChatMessage)
    (e : option Error) (w : World) :
  chatHeld id q msgs w -> chatHeld id q msgs (reject e w).
Proof. now destruct e. Qed.

Section ChatFrame.

Variable api : Service.

Lemma quiet_step (id : nat) (q : string) (msgs : list ChatMessage)
    (w w' : World) (ev : Event) :
  chatHeld id q msgs w ->
  quiet id ev = true ->
  step api w ev = Some w' ->
  chatHeld id q msgs w'.
Proof.
  intros Hheld Hquiet Hstep. destruct ev; cbn in Hstep, Hquiet.
  - injection Hstep as <-. apply held_dispatch; auto; repeat constructor.
  - injection Hstep as <-.
    destruct (activeTab (state w) =? "calendar");
      apply held_dispatch; auto; repeat constructor.
  - injection Hstep as <-. apply held_dispatch; auto; repeat constructor.
  - injection Hstep as <-. apply held_dispatch; auto; repeat constructor.
  - injection Hstep as <-. apply held_dispatch; auto; repeat constructor.
  - discriminate.
  - apply negb_true_iff, Nat.eqb_neq in Hquiet.
    destruct (findCall id0 (pending w)) as [call|] eqn:Hcall; [ | discriminate ].
    injection Hstep as <-.
    pose proof (held_settled id id0 q msgs w Hquiet Hheld) as Hs.
    destruct call; cbn.
    + destruct (svc_fetchUpcomingResults api net);
        apply held_dispatch; auto; repeat constructor.
    + destruct (svc_fetchLatestResults api net);
        apply held_dispatch; auto; repeat constructor.
    + exfalso. apply Hquiet. destruct Hheld as (_ & _ & Honly).
      apply (Honly (id0, CallChat question)); [ | reflexivity ].
      now apply findCall_In.
    + destruct (svc_triggerResultProcessing api company ticker net)
        as [[data | error] | e]; cbn -[dispatch reject];
        apply held_reject, held_dispatch; auto; repeat constructor.
  - destruct (findTimer id0 (timers w)) as [due|]; [ | discriminate ].
    destruct (Nat.leb due (clock w)); [ | discriminate ].
    injection Hstep as <-. apply held_dispatch; auto; repeat constructor.
  - injection Hstep as <-. exact Hheld.
Qed.

Lemma quiet_run (id : nat) (q : string) (msgs : list ChatMessage)
    (evs : list Event) (w w' : World) :
  chatHeld id q msgs w ->
  forallb (quiet id) evs = true ->
  run api evs w = Some w' ->
  chatHeld id q msgs w'.
Proof.
  revert w. induction evs as [| ev evs IH]; intros w Hheld Hq Hrun;
    simpl in Hrun, Hq.
  - now injection Hrun as <-.
  - apply andb_true_iff in Hq. destruct Hq as [Hq1 Hq2].
    destruct (step api w ev) as [w1|] eqn:Hstep; [ | discriminate ].
    apply (IH w1); [ eapply quiet_step; eassumption | exact Hq2 | exact Hrun ].
Qed.

End ChatFrame.

Lemma submit_accepted (w : World) :
  emptyStr (trim (chatInput (state w))) = false ->
  let q := chatInput (state w) in
  let w1 := dispatch (handleChatSubmit q) w in
  chatMessages (state w1)
  = (chatMessages (state w) ++ [mkMsg "user" (Str q); thinkingMessage])%list
  /\ chatInput (state w1) = ""
  /\ pending w1 = (pending w ++ [(nextCall w, CallChat q)])%list
  /\ nextCall w1 = S (nextCall w).
Proof.
  intros H. cbv zeta. unfold dispatch, handleChatSubmit. rewrite H.
  cbn [exec fold_left exec1 setState state].
  rewrite commit_unchanged by reflexivity.
  cbn. rewrite <- app_assoc. repeat split; reflexivity.
Qed.

Lemma no_chat_pending (w : World) :
  outstandingChats w = 0 <-> Forall (fun p => isChatCall p = false) (pending w).
Proof.
  unfold outstandingChats. induction (pending w) as [| p l IH]; simpl.
  - split; [ constructor | reflexivity ].
  - destruct (isChatCall p) eqn:E; simpl.
    + split; [ discriminate | ]. intros H. inversion H; congruence.
    + rewrite IH. split; [ now constructor | intros H; now inversion H ].
Qed.

(** Settling a chat call with the real [api]: the last bubble is replaced
    by a bot bubble with the answer. *)
Lemma settle_chat (w : World) (id : nat) (q : string) (net : FetchOutcome)
    (a : Value) :
  findCall id (pending w) = Some (CallChat q) ->
  sendChatMessage q net = Normal a ->
  let w2 :=
    exec [ setChatMessages
             (fun prev => (removelast prev ++ [mkMsg "bot" a])%list) ]
      (settled id w) in
  step api w (Settle id net) = Some w2.
Proof.
  intros Hf Ha. cbv zeta. unfold step. rewrite Hf. f_equal.
  unfold resume. cbn [svc_sendChatMessage api]. rewrite Ha.
  cbn [handleChatSubmit_resume reject]. unfold dispatch.
  now rewrite commit_unchanged by reflexivity.
Qed.

(** C9. A submit with a blank input does nothing.  Otherwise the segment
    of [handleChatSubmit] is a prefix of state setters followed by the one
    [api.sendChatMessage] call: once the prefix has run, the transcript has
    the user turn and the placeholder at its end, the input is cleared and
    no call has been started; the call is started last.  The call cannot
    settle before the submit, and it can settle after it. *)
Theorem chat_submit_order
    (w : World) (net : FetchOutcome) (Hnum : wellNumbered w) :
  let q := chatInput (state w) in
  if emptyStr (trim q)
  then step api w SubmitChat = Some w
  else
    exists pre,
      handleChatSubmit q = (pre ++ [await (CallChat q)])%list
      /\ forallb (fun c => negb (isAwait c)) pre = true
      /\ chatMessages (state (exec pre w))
         = (chatMessages (state w)
            ++ [mkMsg "user" (Str q); thinkingMessage])%list
      /\ chatInput (state (exec pre w)) = ""
      /\ pending (exec pre w) = pending w
      /\ step api w SubmitChat = Some (exec [await (CallChat q)] (exec pre w))
      /\ step api w (Settle (nextCall w) net) = None
      /\ exists w2,
           step api (exec [await (CallChat q)] (exec pre w))
             (Settle (nextCall w) net) = Some w2.
Proof.
  cbv zeta. destruct (emptyStr (trim (chatInput (state w)))) eqn:Hq.
  - unfold step, handleChatSubmit. rewrite Hq. unfold dispatch. cbn.
    now rewrite commit_unchanged.
  - destruct (findCall_fresh (nextCall w) (pending w)
                (CallChat (chatInput (state w))) Hnum) as [Hnone Hsome].
    exists [ setChatMessages
               (fun prev =>
                  (prev ++ [mkMsg "user" (Str (chatInput (state w)))])%list);
             setChatInput "";
             setChatMessages (fun prev => (prev ++ [thinkingMessage])%list) ].
    split; [ unfold handleChatSubmit; rewrite Hq; reflexivity | ].
    cbn -[step]. rewrite <- app_assoc.
    repeat (split; [ reflexivity | ]).
    split.
    + unfold step, dispatch, handleChatSubmit. rewrite Hq.
      cbn [exec fold_left exec1 setState state].
      rewrite commit_unchanged by reflexivity. cbn.
      now rewrite <- app_assoc.
    + split.
      * unfold step. now rewrite Hnone.
      * destruct (sendChatMessage_total (chatInput (state w)) net) as [a Ha].
        eexists. eapply settle_chat; [ exact Hsome | exact Ha ].
Qed.

Lemma chat_submit_order_witness :
  exists pre,
    handleChatSubmit "How did Wipro perform?"
    = (pre ++ [await (CallChat "How did Wipro perform?")])%list
    /\ forallb (fun c => negb (isAwait c)) pre = true.
Proof.
  pose proof (chat_submit_order
                (dispatch [ setChatInput "How did Wipro perform?" ] mount)
                (Rejected (mkError "TypeError" "Failed to fetch"))
                (wellNumbered_dispatch _ _ wellNumbered_mount)) as H.
  cbv zeta in H.
  change (emptyStr
            (trim (chatInput
                     (state (dispatch [ setChatInput "How did Wipro perform?" ]
                               mount)))))
    with false in H.
  cbv iota in H.
  destruct H as (pre & H1 & H2 & _).
  exists pre. split; [ exact H1 | exact H2 ].
Defined.

(** X21. Without another submit in between, a failed chat call gets its
    fallback.  Submit a non-blank question while no other chat call is
    pending; let anything happen that is not a chat event; then let the call
    fail (the request rejects or the status is not ok).  The placeholder is
    still the last bubble when the failure arrives, and settling the call
    replaces it by a bot bubble with the fixed error string of
    [sendChatMessage]. *)
Theorem chat_failure_fallback
    (w w' : World) (evs : list Event) (net : FetchOutcome)
    (Hnum : wellNumbered w)
    (Hidle : outstandingChats w = 0)
    (Hq : emptyStr (trim (chatInput (state w))) = false)
    (Hquiet : forallb (quiet (nextCall w)) evs = true)
    (Hrun : run api evs (dispatch (handleChatSubmit (chatInput (state w))) w)
            = Some w')
    (Hfail : failedRequest net = true) :
  let q := chatInput (state w) in
  step api w SubmitChat = Some (dispatch (handleChatSubmit q) w)
  /\ chatMessages (state w')
     = (chatMessages (state w) ++ [mkMsg "user" (Str q); thinkingMessage])%list
  /\ sendChatMessage q net = Normal (Str chatFallback)
  /\ exists w2,
       step api w' (Settle (nextCall w) net) = Some w2
       /\ chatMessages (state w2)
          = (chatMessages (state w)
             ++ [mkMsg "user" (Str q); mkMsg "bot" (Str chatFallback)])%list.
Proof.
  cbv zeta. split; [ reflexivity | ].
  destruct (submit_accepted w Hq) as (Hm & _ & Hp & _). cbv zeta in Hm, Hp.
  destruct (findCall_fresh (nextCall w) (pending w)
              (CallChat (chatInput (state w))) Hnum) as [_ Hsome].
  assert (Hheld : chatHeld (nextCall w) (chatInput (state w))
                    (chatMessages (state w)
                     ++ [mkMsg "user" (Str (chatInput (state w)));
                         thinkingMessage])%list
                    (dispatch (handleChatSubmit (chatInput (state w))) w)).
  { unfold chatHeld. rewrite Hm, Hp.
    split; [ reflexivity | split; [ exact Hsome | ] ].
    intros p Hin Hchat. apply in_app_or in Hin. destruct Hin as [Hin | Hin].
    - apply no_chat_pending in Hidle. rewrite Forall_forall in Hidle.
      specialize (Hidle p Hin). congruence.
    - destruct Hin as [<- | []]. reflexivity. }
  destruct (quiet_run api _ _ _ evs _ w' Hheld Hquiet Hrun) as (Hm' & Hf' & _).
  pose proof (sendChatMessage_failed (chatInput (state w)) net Hfail) as Ha.
  split; [ exact Hm' | split; [ exact Ha | ] ].
  eexists. split; [ eapply settle_chat; [ exact Hf' | exact Ha ] | ].
  cbn. rewrite Hm'.
  change [mkMsg "user" (Str (chatInput (state w))); thinkingMessage]
    with ([mkMsg "user" (Str (chatInput (state w)))] ++ [thinkingMessage])%list.
  rewrite app_assoc, removelast_last, <- app_assoc. reflexivity.
Qed.

Lemma chat_failure_fallback_witness :
  exists w2,
    step api
      (dispatch [ setActiveTab "latest" ]
         (dispatch (handleChatSubmit "How did Wipro perform?")
            (dispatch [ setChatInput "How did Wipro perform?" ] mount)))
      (Settle 1 (Responded (mkResponse false (Json Null)))) = Some w2
    /\ chatMessages (state w2)
       = (chatMessages initialState
          ++ [mkMsg "user" (Str "How did Wipro perform?");
              mkMsg "bot" (Str chatFallback)])%list.
Proof.
  exact (proj2 (proj2 (proj2
    (chat_failure_fallback
              (dispatch [ setChatInput "How did Wipro perform?" ] mount)
              (dispatch [ setActiveTab "latest" ]
                 (dispatch (handleChatSubmit "How did Wipro perform?")
                    (dispatch [ setChatInput "How did Wipro perform?" ] mount)))
              [ ClickTab LatestTab ]
              (Responded (mkResponse false (Json Null)))
              (wellNumbered_dispatch _ _ wellNumbered_mount)
              eq_refl eq_refl eq_refl eq_refl eq_refl)))).
Defined.

(** C6. The continuation of [handleChatSubmit] replaces the last bubble,
    not the placeholder of its own submit, and the form accepts a submit
    while a chat call is pending.  On the chat tab two questions are
    submitted one after the other and the request of the first is refused
    before the second is answered.  [sendChatMessage] resolves to the fixed
    error string, which is put in the place of the placeholder of the
    second question; the answer to the second question then overwrites it.
    In the end no chat call is pending, the placeholder of the first
    question is still in the transcript, and the error string is in no
    bubble. *)
Theorem chat_failure_overlap_keeps_placeholder :
  session api
    [ ClickTab ChatTab; TypeChat "How did Wipro perform?"; SubmitChat;
      TypeChat "And Infosys?"; SubmitChat;
      Settle 1 (Rejected (mkError "TypeError" "Failed to fetch")) ]
    mount = Some overlapRefused
  /\ sendChatMessage "How did Wipro perform?"
       (Rejected (mkError "TypeError" "Failed to fetch"))
     = Normal (Str chatFallback)
  /\ chatMessages (state overlapRefused)
     = (chatMessages initialState
        ++ [ mkMsg "user" (Str "How did Wipro perform?"); thinkingMessage;
             mkMsg "user" (Str "And Infosys?");
             mkMsg "bot" (Str chatFallback) ])%list
  /\ step api overlapRefused
       (Settle 2 (okBody (Obj [("response", Str "Infosys grew 4%.")])))
     = Some overlapAnswered
  /\ chatMessages (state overlapAnswered)
     = (chatMessages initialState
        ++ [ mkMsg "user" (Str "How did Wipro perform?"); thinkingMessage;
             mkMsg "user" (Str "And Infosys?");
             mkMsg "bot" (Str "Infosys grew 4%.") ])%list
  /\ outstandingChats overlapAnswered = 0
  /\ placeholders overlapAnswered = 1
  /\ ~ In (mkMsg "bot" (Str chatFallback))
          (chatMessages (state overlapAnswered)).
Proof.
  split; [ vm_compute; reflexivity | ].
  split; [ reflexivity | ].
  split; [ reflexivity | ].
  split; [ vm_compute; reflexivity | ].
  split; [ reflexivity | ].
  split; [ reflexivity | ].
  split; [ reflexivity | ].
  intros H. vm_compute in H.
  repeat (destruct H as [H | H]; [ discriminate H | ]). exact H.
Qed.

(** *** Submits that settle one after the other *)

Lemma type_chat (w : World) (q : string) :
  let w1 := dispatch [ setChatInput q ] w in
  step api w (TypeChat q) = Some w1
  /\ chatInput (state w1) = q
  /\ chatMessages (state w1) = chatMessages (state w)
  /\ pending w1 = pending w
  /\ nextCall w1 = nextCall w.
Proof.
  cbv zeta. unfold step, dispatch. cbn [exec fold_left exec1 setState state].
  rewrite commit_unchanged by reflexivity. repeat split; reflexivity.
Qed.

(** ** The notification toast *)

Lemma findTimer_single (id i due : nat) :
  findTimer id [(i, due)] = if Nat.eqb i id then Some due else None.
Proof. reflexivity. Qed.

(** Whatever was pending for the previous notification is cleared by the
    cleanup of the effect. *)
Lemma cleanup_clears (n : option string) (w : World) :
  timedFor n w \/ timers w = [] ->
  timers (notificationCleanup w) = []
  /\ nextTimer (notificationCleanup w) = nextTimer w
  /\ clock (notificationCleanup w) = clock w
  /\ state (notificationCleanup w) = state w.
Proof.
  unfold timedFor, notificationCleanup, clearTimeout.
  destruct (cleanup w) as [id|]; cbn; intros [H | H].
  - destruct H as (due & m & Ht & _). rewrite Ht. cbn.
    now rewrite Nat.eqb_refl.
  - now rewrite H.
  - now rewrite H.
  - now rewrite H.
Qed.

(** The effect run on a world without pending timer. *)
Lemma effect_starts (w : World) :
  timers w = [] -> toastTimed (notificationEffect w).
Proof.
  intros Ht. unfold toastTimed, timedFor, notificationEffect.
  destruct (notification (state w)) as [m|] eqn:Hn; cbn;
    [ destruct (emptyStr m) eqn:He; cbn | ]; try exact Ht.
  rewrite Ht. exists (clock w + 3000), m.
  repeat split; [ lia | exact Hn | ].
  intros ->. discriminate He.
Qed.

Lemma commit_timed (old : State) (w : World) :
  timedFor (notification old) w
  \/ (timers w = []
      /\ sameNotification (notification old) (notification (state w)) = false) ->
  toastTimed (commit old w).
Proof.
  intros H. unfold commit.
  set (w1 := if activeTab old =? activeTab (state w) then w
             else exec (tabEffect (state w)) w).
  assert (Henv : timers w1 = timers w /\ nextTimer w1 = nextTimer w
                 /\ cleanup w1 = cleanup w
                 /\ notification (state w1) = notification (state w)).
  { subst w1. destruct (activeTab old =? activeTab (state w));
      [ repeat split | ].
    destruct (exec_environment (tabEffect (state w)) w) as (H1 & H2 & H3 & _).
    repeat split; try assumption.
    unfold tabEffect.
    destruct (activeTab (state w) =? "calendar");
      [ | destruct (activeTab (state w) =? "latest") ]; reflexivity. }
  destruct Henv as (Ht & Hnt & Hc & Hn).
  assert (H1 : timedFor (notification old) w1
               \/ (timers w1 = []
                   /\ sameNotification (notification old)
                        (notification (state w1)) = false)).
  { destruct H as [H | [H H']]; [ left | right ].
    - unfold timedFor in *. rewrite Hc, Ht, Hnt. exact H.
    - now rewrite Ht, Hn. }
  clearbody w1. clear H Ht Hnt Hc Hn.
  destruct (sameNotification (notification old) (notification (state w1)))
    eqn:Es.
  - destruct H1 as [H1 | [_ H1]]; [ | discriminate H1 ].
    apply sameNotification_eq in Es. unfold toastTimed. now rewrite <- Es.
  - apply effect_starts.
    apply (cleanup_clears (notification old) w1).
    destruct H1 as [H1 | [H1 _]]; [ now left | now right ].
Qed.

Lemma timed_exec (n : option string) (cmds : list Cmd) (w : World) :
  timedFor n w -> timedFor n (exec cmds w).
Proof.
  unfold timedFor.
  destruct (exec_environment cmds w) as (H1 & H2 & H3 & _).
  now rewrite H1, H2, H3.
Qed.

Lemma toastTimed_dispatch (cmds : list Cmd) (w : World) :
  toastTimed w -> toastTimed (dispatch cmds w).
Proof.
  intros H. unfold dispatch. apply commit_timed. left.
  now apply timed_exec.
Qed.

Lemma toastTimed_reject (e : option Error) (w : World) :
  toastTimed w -> toastTimed (reject e w).
Proof. now destruct e. Qed.

Lemma toastTimed_mount : toastTimed mount.
Proof. reflexivity. Qed.

Section ToastFacts.

Variable api : Service.

(** In every turn of the event loop at most one timer is pending, the one
    of the notification on display. *)
Lemma toastTimed_step (w w' : World) (ev : Event) :
  toastTimed w -> step api w ev = Some w' -> toastTimed w'.
Proof.
  intros H Hstep. destruct ev; cbn in Hstep.
  1-6: injection Hstep as <-; now apply toastTimed_dispatch.
  - destruct (findCall id (pending w)) as [call|]; [ | discriminate ].
    injection Hstep as <-.
    assert (Hs : toastTimed (settled id w)) by exact H.
    destruct call; cbn -[dispatch reject].
    + now apply toastTimed_dispatch.
    + now apply toastTimed_dispatch.
    + destruct (handleChatSubmit_resume _) as [cmds e].
      now apply toastTimed_reject, toastTimed_dispatch.
    + destruct (handleProcessResult_resume _ _) as [cmds e].
      now apply toastTimed_reject, toastTimed_dispatch.
  - destruct (findTimer id (timers w)) as [due|] eqn:Hf; [ | discriminate ].
    destruct (Nat.leb due (clock w)); [ | discriminate ].
    injection Hstep as <-. unfold dispatch. apply commit_timed. right.
    unfold toastTimed, timedFor in H.
    destruct (cleanup w) as [i|].
    + destruct H as (due' & m & Ht & _ & Hn & _).
      rewrite Ht, findTimer_single in Hf.
      destruct (Nat.eqb i id) eqn:E; [ | discriminate Hf ].
      cbn. rewrite Ht, Hn. cbn. rewrite E. split; reflexivity.
    + rewrite H in Hf. discriminate Hf.
  - injection Hstep as <-. exact H.
Qed.

Lemma toastTimed_run (evs : list Event) (w w' : World) :
  toastTimed w -> run api evs w = Some w' -> toastTimed w'.
Proof.
  revert w. induction evs as [| ev evs IH]; intros w H Hrun; simpl in Hrun.
  - now injection Hrun as <-.
  - destruct (step api w ev) as [w1|] eqn:Hstep; [ | discriminate ].
    eapply IH; [ | exact Hrun ]. eapply toastTimed_step; eassumption.
Qed.

End ToastFacts.

(** [show m] when something else is on display: the effect runs again. *)
Lemma show_changed (m : string) (w : World) :
  toastTimed w ->
  sameNotification (notification (state w)) (Some m) = false ->
  emptyStr m = false ->
  notification (state (show m w)) = Some m
  /\ timers (show m w) = [(nextTimer w, clock w + 3000)]
  /\ cleanup (show m w) = Some (nextTimer w)
  /\ nextTimer (show m w) = S (nextTimer w)
  /\ clock (show m w) = clock w.
Proof.
  intros Ht Hs He. unfold show, dispatch, commit.
  cbn [exec fold_left exec1 setState state activeTab].
  rewrite String.eqb_refl. cbn [setState state notification]. rewrite Hs.
  match goal with
  | |- context [notificationCleanup ?x] =>
      destruct (cleanup_clears (notification (state w)) x) as (C1 & C2 & C3 & C4);
      [ left; exact Ht | ]
  end.
  unfold notificationEffect. rewrite C1, C2, C3, C4. cbn. rewrite He. cbn.
  repeat split; reflexivity.
Qed.

(** [show m] when [m] is on display already: nothing runs. *)
Lemma show_same (m : string) (w : World) :
  notification (state w) = Some m ->
  timers (show m w) = timers w
  /\ cleanup (show m w) = cleanup w
  /\ nextTimer (show m w) = nextTimer w
  /\ clock (show m w) = clock w
  /\ notification (state (show m w)) = Some m.
Proof.
  intros Hn. unfold show, dispatch.
  rewrite commit_unchanged; [ repeat split | reflexivity | exact Hn ].
Qed.

Lemma show_shown (m : string) (w : World) :
  toastTimed w ->
  notification (state (show m w)) = Some m /\ toastTimed (show m w).
Proof.
  intros Ht. split; [ | now apply toastTimed_dispatch ].
  unfold show, dispatch.
  now destruct (commit_frame (state w) (exec [ setNotification (Some m) ] w))
    as ((_ & _ & _ & _ & _ & _ & H) & _).
Qed.

(** The toast after a commit is a function of the notification before
    the segment and of the toast after the segment. *)
Lemma effect_toastView_explicit (w : World) :
  toastView (notificationEffect (notificationCleanup w))
  = let rest :=
      match cleanup w with
      | Some id => filter (fun t => negb (Nat.eqb (fst t) id)) (timers w)
      | None => timers w
      end in
    match notification (state w) with
    | Some m =>
        if emptyStr m
        then (Some m, rest, nextTimer w, None, clock w)
        else (Some m, (rest ++ [(nextTimer w, clock w + 3000)])%list,
              S (nextTimer w), Some (nextTimer w), clock w)
    | None => (None, rest, nextTimer w, None, clock w)
    end.
Proof.
  unfold toastView, notificationEffect, notificationCleanup, clearTimeout.
  destruct (cleanup w) as [id|]; cbn;
    (destruct (notification (state w)) as [m|] eqn:Hm;
       [ destruct (emptyStr m) | ]; cbn; rewrite ?Hm; reflexivity).
Qed.

Lemma effect_toastView (w w' : World) :
  toastView w = toastView w' ->
  toastView (notificationEffect (notificationCleanup w))
  = toastView (notificationEffect (notificationCleanup w')).
Proof.
  intros H. rewrite !effect_toastView_explicit.
  unfold toastView in H. injection H as Hn Ht Hnt Hc Hk.
  now rewrite Hn, Ht, Hnt, Hc, Hk.
Qed.

Lemma commit_toastView (old : State) (w : World) :
  toastView (commit old w)
  = if sameNotification (notification old) (notification (state w))
    then toastView w
    else toastView (notificationEffect (notificationCleanup w)).
Proof.
  unfold commit.
  set (w1 := if activeTab old =? activeTab (state w) then w
             else exec (tabEffect (state w)) w).
  assert (Hv : toastView w1 = toastView w).
  { subst w1. destruct (activeTab old =? activeTab (state w)); [ reflexivity | ].
    destruct (exec_environment (tabEffect (state w)) w) as (H1 & H2 & H3 & H4 & _).
    destruct (tabEffect_frame (state w) w) as [(_ & _ & _ & _ & _ & _ & Hn) _].
    unfold toastView. now rewrite H1, H2, H3, H4, Hn. }
  clearbody w1.
  assert (Hn : notification (state w1) = notification (state w))
    by (unfold toastView in Hv; now injection Hv).
  rewrite Hn.
  destruct (sameNotification (notification old) (notification (state w)));
    [ exact Hv | now apply effect_toastView ].
Qed.

Lemma exec_toastView (cmds : list Cmd) (w : World) :
  toastView (exec cmds w)
  = (notification (state (exec cmds w)), timers w, nextTimer w, cleanup w,
     clock w).
Proof.
  destruct (exec_environment cmds w) as (H1 & H2 & H3 & H4 & _).
  unfold toastView. now rewrite H1, H2, H3, H4.
Qed.

(** Two segments that leave the same notification, dispatched in worlds
    with the same toast, give the same toast. *)
Lemma dispatch_toastView (cmds cmds' : list Cmd) (w w' : World) :
  toastView w = toastView w' ->
  notification (state (exec cmds w)) = notification (state (exec cmds' w')) ->
  toastView (dispatch cmds w) = toastView (dispatch cmds' w').
Proof.
  intros Hv Hn. unfold dispatch. rewrite !commit_toastView.
  assert (He : toastView (exec cmds w) = toastView (exec cmds' w')).
  { rewrite !exec_toastView, Hn. unfold toastView in Hv.
    injection Hv as _ Ht Hnt Hc Hk. now rewrite Ht, Hnt, Hc, Hk. }
  assert (Ho : notification (state w) = notification (state w'))
    by (unfold toastView in Hv; now injection Hv).
  rewrite Ho, Hn.
  destruct (sameNotification _ _); [ exact He | now apply effect_toastView ].
Qed.

Section ToastOfProcessing.

Variable api : Service.

(** The only place that shows a toast: when a processing call settles with
    a result, the toast is what [show] of the message for that result
    gives. *)
Lemma settle_process_shows
    (w : World) (id : nat) (company ticker : string) (net : FetchOutcome)
    (result : ProcessResult) :
  findCall id (pending w) = Some (CallProcess company ticker) ->
  svc_triggerResultProcessing api company ticker net = Normal result ->
  exists w2,
    step api w (Settle id net) = Some w2
    /\ toastView w2 = toastView (show (toastOfResult company result) w).
Proof.
  intros Hf Hr. unfold step. rewrite Hf. eexists. split; [ reflexivity | ].
  unfold resume. rewrite Hr. unfold show, toastOfResult.
  destruct result as [data | error]; cbn -[dispatch];
    apply dispatch_toastView; reflexivity.
Qed.

End ToastOfProcessing.

Section ToastReplace.

Variable api : Service.

(** C7, as the code has it.  In any world the dashboard can reach,
    [show a] and then, before the timer fired, [show b] with a non-empty
    [b] different from [a]: [b] is shown and exactly one timer is pending;
    it is a new timer (the one of [a] is cancelled), due 3000 ms after
    [show b] and not before; when it fires, the notification is cleared and
    no timer is left. *)
Theorem toast_replaces
    (a b : string) (ms : nat) (evs : list Event) (w : World)
    (Hreach : run api evs mount = Some w) (Hb : b <> "") (Hab : a <> b) :
  toastReplaced api a b ms w.
Proof.
  assert (Htimed : toastTimed w)
    by (eapply toastTimed_run; [ apply toastTimed_mount | exact Hreach ]).
  unfold toastReplaced. cbv zeta.
  destruct (show_shown a w Htimed) as (Hna & Hta).
  set (wa := show a w) in *.
  assert (Hta' : toastTimed (advance ms wa)) by exact Hta.
  assert (Hs : sameNotification (notification (state (advance ms wa))) (Some b)
               = false).
  { cbn. rewrite Hna. cbn. now apply String.eqb_neq. }
  assert (He : emptyStr b = false) by now apply String.eqb_neq.
  destruct (show_changed b (advance ms wa) Hta' Hs He)
    as (Hnb & Htb & Hcb & Hntb & Hclk).
  set (wb := show b (advance ms wa)) in *.
  cbn [advance nextTimer clock] in Htb, Hcb, Hntb, Hclk.
  split; [ exact Hnb | ].
  exists (nextTimer wa). split; [ rewrite Htb, Hclk; reflexivity | ].
  split.
  { unfold toastTimed, timedFor in Hta.
    destruct (cleanup wa) as [i|].
    - destruct Hta as (due & m & Ht & Hlt & _).
      rewrite Ht, findTimer_single.
      destruct (Nat.eqb_spec i (nextTimer wa)); [ lia | reflexivity ].
    - now rewrite Hta. }
  split.
  { unfold step. cbn [advance timers clock]. rewrite Htb, findTimer_single.
    rewrite Nat.eqb_refl.
    destruct (Nat.leb_spec (clock wa + ms + 3000) (clock wb + 2999));
      [ lia | reflexivity ]. }
  eexists. split.
  { unfold step. cbn [advance timers clock]. rewrite Htb, findTimer_single.
    rewrite Nat.eqb_refl.
    destruct (Nat.leb_spec (clock wa + ms + 3000) (clock wb + 3000));
      [ reflexivity | lia ]. }
  unfold dispatch, commit.
  cbn [exec fold_left exec1 setState state activeTab fired advance].
  rewrite String.eqb_refl. cbn [setState state notification]. rewrite Hnb.
  cbn [sameNotification].
  unfold notificationEffect, notificationCleanup, clearTimeout.
  cbn. rewrite Hcb, Htb. cbn. rewrite Nat.eqb_refl. cbn.
  split; reflexivity.
Qed.

End ToastReplace.

Lemma toast_replaces_witness :
  toastReplaced api (errorToast "Wipro" "Failed to process result")
    (successToast "Wipro") 2000 mount.
Proof.
  apply (toast_replaces api _ _ 2000 [] mount eq_refl); discriminate.
Defined.

(** C7, as stated, fails when the same message is shown twice: the second
    [setNotification] does not change the state, the effect does not run,
    and the timer of the first call stays, due 3000 ms after the first
    call.  The run below uses only what the page offers: a card is clicked
    twice, two seconds apart, and the backend refuses both times. *)
Lemma toast_same_message_counterexample :
  (exists w,
     session api
       [ Settle 0 (okBody (Arr [ Obj [ ("company_name", Str "Wipro");
                                       ("company_symbol", Str "WIPRO") ] ]));
         ClickCard "Wipro" "WIPRO";
         Settle 1 (Responded (mkResponse false (Json Null)));
         Tick 2000;
         ClickCard "Wipro" "WIPRO";
         Settle 2 (Responded (mkResponse false (Json Null))) ]
       mount = Some w
     /\ notification (state w)
        = Some (errorToast "Wipro" "Failed to process result")
     /\ clock w = 2000
     /\ timers w = [(0, 3000)])
  /\ ~ toastReplaced api (errorToast "Wipro" "Failed to process result")
         (errorToast "Wipro" "Failed to process result") 2000 mount.
Proof.
  split.
  - eexists. split; [ vm_compute; reflexivity | repeat split ].
  - unfold toastReplaced. cbv zeta. intros (_ & id & Ht & _).
    vm_compute in Ht. discriminate Ht.
Qed.

(** ** More about the API service *)

Lemma fetch_lists_shape (net : FetchOutcome) :
  fetchUpcomingResults net = Normal (listResult net)
  /\ fetchLatestResults net = Normal (listResult net).
Proof. destruct net as [e | [[|] [bad | v]]]; split; reflexivity. Qed.

(** X1. The two list operations resolve to the parsed body when the
    response is ok and the body is truthy, and to the empty array in every
    other case (rejected request, status not ok, body that does not parse,
    falsy body such as [null]); so they always resolve to a truthy value,
    and on the same network outcome both resolve to the same value. *)
Theorem fetch_lists_characterised (net : FetchOutcome) :
  fetchUpcomingResults net = Normal (listResult net)
  /\ fetchLatestResults net = Normal (listResult net)
  /\ truthy (listResult net) = true.
Proof.
  destruct net as [e | [[|] [bad | v]]]; cbn; repeat split.
  unfold JS.or. destruct (truthy v) eqn:E; [ exact E | reflexivity ].
Qed.

(** X2. [sendChatMessage] resolves to the [response] field of the parsed
    body when the response is ok, the body is not [null] and the field is
    truthy (whatever its type); to the apology when the field is missing or
    falsy; and to the connection-error string in every other case,
    including a body that does not parse and the body [null].  The value
    it resolves to is always truthy: it is never [null], [false], [0] or
    the empty string. *)
Theorem chat_result_characterised (question : string) (net : FetchOutcome) :
  sendChatMessage question net = Normal (chatResult net)
  /\ truthy (chatResult net) = true.
Proof.
  destruct net as [e | [[|] [bad | v]]]; cbn; try (split; reflexivity).
  destruct v; cbn; try (split; reflexivity).
  destruct (lookup "response" fields) as [x|]; cbn; [ | split; reflexivity ].
  unfold JS.or. destruct (truthy x) eqn:E; split; try reflexivity. exact E.
Qed.

(** X3. [triggerResultProcessing] resolves to a success result exactly when
    the request was answered with an ok status and a body that parses, and
    then carries that body unchanged; otherwise it resolves to an error
    result with the message of the absorbed error.  The [company] argument
    has no influence on the request or on the result. *)
Theorem trigger_result_characterised
    (company company' ticker : string) (net : FetchOutcome) :
  triggerResultProcessing company ticker net = Normal (processResult net)
  /\ (status (processResult net) = "success"
      <-> exists v, net = Responded (mkResponse true (Json v)))
  /\ triggerResultProcessing_request company ticker
     = triggerResultProcessing_request company' ticker
  /\ triggerResultProcessing company ticker net
     = triggerResultProcessing company' ticker net.
Proof.
  split; [ destruct net as [e | [[|] [bad | v]]]; reflexivity | ].
  split; [ | split; reflexivity ].
  destruct net as [e | [[|] [bad | v]]]; cbn; split;
    try discriminate; try (intros [v' H]; discriminate H).
  - intros _. now exists v.
  - reflexivity.
Qed.

(** X4. Each operation writes to the console exactly the error it absorbed
    and nothing when it succeeds: the error of the rejected request, its
    own error for a status that is not ok, or the error of the body that
    did not parse; [sendChatMessage] also logs the [TypeError] of reading
    [response] from the body [null]. *)
Theorem api_logs_absorbed_error
    (question company ticker : string) (net : FetchOutcome) :
  fst (fetchUpcomingResults_body net)
  = logged "Failed to fetch upcoming results" net
  /\ fst (fetchLatestResults_body net)
     = logged "Failed to fetch latest results" net
  /\ fst (triggerResultProcessing_body company ticker net)
     = logged "Failed to process result" net
  /\ match net with
     | Responded (mkResponse true (Json Null)) =>
         map name (fst (sendChatMessage_body question net)) = ["TypeError"]
     | _ =>
         fst (sendChatMessage_body question net)
         = logged "Failed to send message" net
     end.
Proof.
  destruct net as [e | [[|] [bad | v]]]; cbn; repeat split.
  destruct v; reflexivity.
Qed.

(** ** More about the dashboard *)

Section DashboardFacts.

Variable api : Service.

(** X5. The refresh button starts the load of the upcoming results on the
    calendar tab and the load of the latest results on every other tab, the
    chat tab included; it shows the spinner, takes the error banner away
    and leaves the lists, the tab, the chat and the toast as they are. *)
Theorem refresh_reloads (w : World) :
  exists w',
    step api w ClickRefresh = Some w'
    /\ pending w'
       = (pending w
          ++ [(nextCall w,
               if activeTab (state w) =? "calendar"
               then CallUpcoming else CallLatest)])%list
    /\ loading (state w') = true
    /\ error (state w') = None
    /\ sameData (state w) (state w')
    /\ toastView w' = toastView w.
Proof.
  eexists. split; [ reflexivity | ].
  unfold dispatch.
  destruct (activeTab (state w) =? "calendar");
    cbn [loadUpcomingResults loadLatestResults exec fold_left exec1 setState state];
    rewrite commit_unchanged by reflexivity;
    repeat split.
Qed.

(** X6. Clicking the tab that is already active changes nothing: no load
    is started and the world stays as it is. *)
Theorem reselect_active_tab (w : World) (b : TabButton)
    (Hactive : activeTab (state w) = tab_id b) :
  step api w (ClickTab b) = Some w.
Proof.
  unfold step, dispatch. cbn [exec fold_left exec1 setState state].
  rewrite commit_unchanged by (cbn; congruence).
  rewrite <- Hactive. destruct w as [[] ? ? ? ? ? ? ?]. reflexivity.
Qed.

(** X7. When a processing call settles with a success result, the latest
    results are loaded again only if the dashboard was not on the latest tab
    already: on the latest tab no call is started and the list on display is
    not refreshed. *)
Theorem processing_success_reload
    (w : World) (id : nat) (company ticker : string) (net : FetchOutcome)
    (data : Value)
    (Hpending : findCall id (pending w) = Some (CallProcess company ticker))
    (Hresult : svc_triggerResultProcessing api company ticker net
               = Normal (Success data)) :
  exists w',
    step api w (Settle id net) = Some w'
    /\ activeTab (state w') = "latest"
    /\ pending w'
       = (pending (settled id w)
          ++ (if activeTab (state w) =? "latest" then []
              else [(nextCall w, CallLatest)]))%list
    /\ latestResults (state w') = latestResults (state w).
Proof.
  unfold step. rewrite Hpending. eexists. split; [ reflexivity | ].
  unfold resume. rewrite Hresult. cbn -[dispatch settled successToast].
  destruct (dispatch_calls
              [ setNotification (Some (successToast company));
                setActiveTab "latest"; setProcessingCompany None ]
              (settled id w)) as [Hp _].
  rewrite activeTab_dispatch, Hp. cbn -[settled String.eqb successToast].
  split; [ reflexivity | ]. split.
  - change (state (settled id w)) with (state w).
    change (nextCall (settled id w)) with (nextCall w).
    destruct (activeTab (state w) =? "latest"); reflexivity.
  - unfold dispatch.
    match goal with
    | |- context [commit ?old ?x] =>
        destruct (commit_frame old x) as ((_ & _ & Hl & _) & _)
    end.
    rewrite Hl. reflexivity.
Qed.

(** X8. The active tab changes in two ways only: the user clicks a tab
    button, or a processing call settles with a success result (which
    selects the latest tab).  No load, chat turn, timer or refresh moves
    the user to another tab. *)
Theorem tab_changes_only_by (w w' : World) (ev : Event)
    (Hstep : step api w ev = Some w')
    (Hchanged : activeTab (state w') <> activeTab (state w)) :
  (exists b, ev = ClickTab b /\ activeTab (state w') = tab_id b)
  \/ (exists id net company ticker data,
        ev = Settle id net
        /\ findCall id (pending w) = Some (CallProcess company ticker)
        /\ svc_triggerResultProcessing api company ticker net
           = Normal (Success data)
        /\ activeTab (state w') = "latest").
Proof.
  destruct ev; cbn in Hstep.
  - left. exists b. split; [ reflexivity | ].
    injection Hstep as <-. now rewrite activeTab_dispatch.
  - exfalso. injection Hstep as <-. apply Hchanged.
    rewrite activeTab_dispatch.
    now destruct (activeTab (state w) =? "calendar").
  - exfalso. injection Hstep as <-. apply Hchanged.
    now rewrite activeTab_dispatch.
  - exfalso. injection Hstep as <-. apply Hchanged.
    now rewrite activeTab_dispatch.
  - exfalso. injection Hstep as <-. apply Hchanged.
    now rewrite activeTab_dispatch.
  - exfalso. injection Hstep as <-. apply Hchanged.
    rewrite activeTab_dispatch. unfold handleChatSubmit.
    now destruct (emptyStr (trim (chatInput (state w)))).
  - destruct (findCall id (pending w)) as [call|] eqn:Hcall; [ | discriminate ].
    injection Hstep as <-.
    destruct call; cbn in Hchanged |- *.
    + exfalso. apply Hchanged. rewrite activeTab_dispatch.
      now destruct (svc_fetchUpcomingResults api net).
    + exfalso. apply Hchanged. rewrite activeTab_dispatch.
      now destruct (svc_fetchLatestResults api net).
    + exfalso. apply Hchanged.
      destruct (svc_sendChatMessage api question net); cbn;
        now rewrite activeTab_dispatch.
    + destruct (svc_triggerResultProcessing api company ticker net)
        as [[data | error] | e] eqn:Hres; cbn in Hchanged |- *.
      * right. exists id, net, company, ticker, data.
        repeat split; try assumption. now rewrite activeTab_dispatch.
      * exfalso. apply Hchanged. now rewrite activeTab_dispatch.
      * exfalso. apply Hchanged. now rewrite activeTab_dispatch.
  - destruct (findTimer id (timers w)) as [due|]; [ | discriminate ].
    destruct (Nat.leb due (clock w)); [ | discriminate ].
    exfalso. injection Hstep as <-. apply Hchanged.
    now rewrite activeTab_dispatch.
  - exfalso. injection Hstep as <-. now apply Hchanged.
Qed.

End DashboardFacts.

Lemma reselect_active_tab_witness :
  step api mount (ClickTab CalendarTab) = Some mount.
Proof. exact (reselect_active_tab api mount CalendarTab eq_refl). Defined.

Lemma processing_success_reload_witness :
  exists w',
    step api (dispatch (handleProcessResult "Wipro" "WIPRO") mount)
      (Settle 1 (okBody (Obj []))) = Some w'
    /\ activeTab (state w') = "latest".
Proof.
  destruct (processing_success_reload api
              (dispatch (handleProcessResult "Wipro" "WIPRO") mount) 1
              "Wipro" "WIPRO" (okBody (Obj [])) (Obj []) eq_refl eq_refl)
    as (w' & Hs & Ht & _).
  exists w'. split; assumption.
Defined.

Lemma tab_changes_only_by_witness :
  exists b, ClickTab ChatTab = ClickTab b.
Proof.
  destruct (tab_changes_only_by api mount
              (dispatch [ setActiveTab "chat" ] mount) (ClickTab ChatTab)
              eq_refl) as [(b & Hb & _) | (id & net & c & t & d & H & _)].
  - discriminate.
  - exists b. exact Hb.
  - discriminate H.
Defined.

(** *** What a dispatched segment leaves behind *)

Lemma notification_dispatch (cmds : list Cmd) (w : World) :
  notification (state (dispatch cmds w)) = notification (state (exec cmds w)).
Proof.
  unfold dispatch.
  now destruct (commit_frame (state w) (exec cmds w))
    as ((_ & _ & _ & _ & _ & _ & H) & _).
Qed.

Lemma unhandled_dispatch (cmds : list Cmd) (w : World) :
  unhandled (dispatch cmds w) = unhandled w.
Proof.
  unfold dispatch.
  destruct (commit_frame (state w) (exec cmds w)) as (_ & H & _).
  destruct (exec_environment cmds w) as (_ & _ & _ & _ & H').
  now rewrite H, H'.
Qed.

(** The loads that a commit starts clear the error; nothing else in a
    commit writes it. *)
Lemma error_dispatch (cmds : list Cmd) (w : World) :
  error (state (dispatch cmds w)) = error (state (exec cmds w))
  \/ error (state (dispatch cmds w)) = None.
Proof.
  unfold dispatch, commit.
  set (x := exec cmds w).
  assert (H : error (state (if activeTab (state w) =? activeTab (state x)
                            then x else exec (tabEffect (state x)) x))
              = error (state x)
              \/ error (state (if activeTab (state w) =? activeTab (state x)
                               then x else exec (tabEffect (state x)) x))
                 = None).
  { destruct (activeTab (state w) =? activeTab (state x)); [ now left | ].
    unfold tabEffect.
    destruct (activeTab (state x) =? "calendar");
      [ now right | destruct (activeTab (state x) =? "latest") ];
      [ now right | now left ]. }
  destruct (sameNotification _ _); [ exact H | ].
  destruct (effect_frame
              (notificationCleanup
                 (if activeTab (state w) =? activeTab (state x)
                  then x else exec (tabEffect (state x)) x))) as (E & _).
  destruct (cleanup_frame
              (if activeTab (state w) =? activeTab (state x)
               then x else exec (tabEffect (state x)) x)) as (C & _).
  rewrite E, C. exact H.
Qed.

Lemma filter_chat_numbered (n : nat) (calls : list ApiCall) :
  length (filter isChatCall (numbered n calls))
  = length (filter chatCall calls).
Proof.
  revert n. induction calls as [| c calls IH]; intros n; [ reflexivity | ].
  cbn [numbered filter]. unfold isChatCall at 1. cbn [snd].
  destruct c; cbn; now rewrite IH.
Qed.

Lemma outstanding_dispatch (cmds : list Cmd) (w : World) :
  outstandingChats (dispatch cmds w)
  = outstandingChats w + length (filter chatCall (awaits cmds)).
Proof.
  unfold outstandingChats. destruct (dispatch_calls cmds w) as [Hp _].
  rewrite Hp, filter_app, length_app, filter_chat_numbered, filter_app,
    length_app.
  assert (H0 : forall tab, length (filter chatCall (loadOnEntry tab)) = 0).
  { intros tab. unfold loadOnEntry.
    destruct (tab =? "calendar"); [ | destruct (tab =? "latest") ];
      reflexivity. }
  destruct (activeTab (state w) =? activeTab (state (exec cmds w)));
    [ cbn; lia | rewrite H0; lia ].
Qed.

Lemma outstanding_settled (id : nat) (w : World) :
  outstandingChats (settled id w) <= outstandingChats w.
Proof.
  unfold outstandingChats, settled. cbn.
  induction (pending w) as [| p l IH]; cbn; [ lia | ].
  destruct (negb (Nat.eqb (fst p) id)); cbn;
    destruct (isChatCall p); cbn; lia.
Qed.

Lemma chat_found_outstanding (id : nat) (q : string) (w : World) :
  findCall id (pending w) = Some (CallChat q) -> 0 < outstandingChats w.
Proof.
  intros H. apply findCall_In in H. unfold outstandingChats.
  assert (Hin : In (id, CallChat q) (filter isChatCall (pending w)))
    by (apply filter_In; split; [ exact H | reflexivity ]).
  destruct (filter isChatCall (pending w)); [ contradiction | cbn; lia ].
Qed.

Lemma removelast_keeps_length {A} (l : list A) (x : A) :
  l <> [] ->
  length (removelast l ++ [x]) = length l /\ (removelast l ++ [x])%list <> [].
Proof.
  intros Hne. destruct (exists_last Hne) as (l' & y & ->).
  rewrite removelast_last, !length_app. split; [ reflexivity | ].
  intros H. apply app_eq_nil in H. destruct H as [_ H]. discriminate H.
Qed.

(** *** The transcript in every reachable world *)

Lemma kept_quiet (cmds : list Cmd) (w : World) :
  transcriptKept w ->
  chatMessages (state (exec cmds w)) = chatMessages (state w) ->
  filter chatCall (awaits cmds) = [] ->
  transcriptKept (dispatch cmds w).
Proof.
  intros (rest & Hm & Hev & Hne) Hsame Hcalls. exists rest.
  rewrite chatMessages_dispatch, Hsame, outstanding_dispatch, Hcalls.
  cbn [length]. rewrite Nat.add_0_r. repeat split; assumption.
Qed.

Lemma kept_settled (id : nat) (w : World) :
  transcriptKept w -> transcriptKept (settled id w).
Proof.
  intros (rest & Hm & Hev & Hne). exists rest.
  repeat split; try assumption.
  intros H. apply Hne. pose proof (outstanding_settled id w). lia.
Qed.

Lemma kept_reject (e : option Error) (w : World) :
  transcriptKept w -> transcriptKept (reject e w).
Proof. now destruct e. Qed.

Lemma kept_mount : transcriptKept mount.
Proof.
  exists []. repeat split; [ exists 0; reflexivity | ].
  cbn. lia.
Qed.

Section TranscriptFacts.

Variable api : Service.

Lemma kept_step (w w' : World) (ev : Event) :
  transcriptKept w -> step api w ev = Some w' -> transcriptKept w'.
Proof.
  intros H Hstep. destruct ev; cbn in Hstep.
  - injection Hstep as <-. now apply kept_quiet.
  - injection Hstep as <-.
    destruct (activeTab (state w) =? "calendar"); now apply kept_quiet.
  - injection Hstep as <-. now apply kept_quiet.
  - injection Hstep as <-. now apply kept_quiet.
  - injection Hstep as <-. now apply kept_quiet.
  - (* SubmitChat *)
    injection Hstep as <-.
    destruct (emptyStr (trim (chatInput (state w)))) eqn:Hq.
    + unfold handleChatSubmit. rewrite Hq. now apply kept_quiet.
    + destruct (submit_accepted w Hq) as (Hm & _ & _ & _). cbv zeta in Hm.
      destruct H as (rest & Hr & Hev & _).
      exists (rest ++ [mkMsg "user" (Str (chatInput (state w)));
                       thinkingMessage])%list.
      rewrite Hm, Hr, <- app_assoc. split; [ reflexivity | ]. split.
      * rewrite length_app. cbn [length]. destruct Hev as [k Hk].
        exists (S k). lia.
      * intros _ E. apply app_eq_nil in E. destruct E as [_ E]. discriminate E.
  - (* Settle *)
    destruct (findCall id (pending w)) as [call|] eqn:Hcall; [ | discriminate ].
    injection Hstep as <-.
    pose proof (kept_settled id w H) as Hs.
    destruct call; cbn -[dispatch reject].
    + destruct (svc_fetchUpcomingResults api net); now apply kept_quiet.
    + destruct (svc_fetchLatestResults api net); now apply kept_quiet.
    + destruct (svc_sendChatMessage api question net) as [a | e];
        cbn -[dispatch reject].
      * apply kept_reject.
        destruct H as (rest & Hr & Hev & Hne).
        specialize (Hne (chat_found_outstanding id question w Hcall)).
        destruct (removelast_keeps_length rest (mkMsg "bot" a) Hne)
          as [Hlen Hne'].
        exists (removelast rest ++ [mkMsg "bot" a])%list.
        rewrite chatMessages_dispatch. cbn.
        rewrite Hr, removelast_app by exact Hne.
        rewrite <- app_assoc, Hlen.
        split; [ reflexivity | split; [ exact Hev | intros _; exact Hne' ] ].
      * apply kept_reject.
        destruct H as (rest & Hr & Hev & Hne).
        specialize (Hne (chat_found_outstanding id question w Hcall)).
        exists rest. rewrite chatMessages_dispatch.
        split; [ exact Hr | split; [ exact Hev | intros _; exact Hne ] ].
    + destruct (svc_triggerResultProcessing api company ticker net)
        as [[data | error] | e]; cbn -[dispatch reject];
        apply kept_reject; now apply kept_quiet.
  - destruct (findTimer id (timers w)) as [due|]; [ | discriminate ].
    destruct (Nat.leb due (clock w)); [ | discriminate ].
    injection Hstep as <-. apply kept_quiet; [ exact H | reflexivity.. ].
  - injection Hstep as <-. exact H.
Qed.

(** What one turn of the event loop does to the transcript: nothing, or it
    appends a user turn and the placeholder, or it replaces the last bubble
    by a bot turn. *)
Lemma transcript_step (w w' : World) (ev : Event) :
  step api w ev = Some w' ->
  chatMessages (state w') = chatMessages (state w)
  \/ (exists q,
        chatMessages (state w')
        = (chatMessages (state w)
           ++ [mkMsg "user" (Str q); thinkingMessage])%list)
  \/ (exists a,
        chatMessages (state w')
        = (removelast (chatMessages (state w)) ++ [mkMsg "bot" a])%list).
Proof.
  intros Hstep. destruct ev; cbn in Hstep.
  - injection Hstep as <-. left. now rewrite chatMessages_dispatch.
  - injection Hstep as <-. left. rewrite chatMessages_dispatch.
    now destruct (activeTab (state w) =? "calendar").
  - injection Hstep as <-. left. now rewrite chatMessages_dispatch.
  - injection Hstep as <-. left. now rewrite chatMessages_dispatch.
  - injection Hstep as <-. left. now rewrite chatMessages_dispatch.
  - injection Hstep as <-.
    destruct (emptyStr (trim (chatInput (state w)))) eqn:Hq.
    + left. unfold handleChatSubmit. rewrite Hq.
      now rewrite chatMessages_dispatch.
    + right. left. exists (chatInput (state w)).
      now destruct (submit_accepted w Hq) as (Hm & _).
  - destruct (findCall id (pending w)) as [call|]; [ | discriminate ].
    injection Hstep as <-.
    destruct call; cbn -[dispatch reject].
    + left. rewrite chatMessages_dispatch.
      now destruct (svc_fetchUpcomingResults api net).
    + left. rewrite chatMessages_dispatch.
      now destruct (svc_fetchLatestResults api net).
    + destruct (svc_sendChatMessage api question net) as [a | e];
        cbn -[dispatch reject]; rewrite state_reject, chatMessages_dispatch.
      * right. right. exists a. reflexivity.
      * left. reflexivity.
    + left.
      destruct (svc_triggerResultProcessing api company ticker net)
        as [[data | error] | e]; cbn -[dispatch reject];
        now rewrite state_reject, chatMessages_dispatch.
  - destruct (findTimer id (timers w)) as [due|]; [ | discriminate ].
    destruct (Nat.leb due (clock w)); [ | discriminate ].
    injection Hstep as <-. left. now rewrite chatMessages_dispatch.
  - injection Hstep as <-. now left.
Qed.

Lemma kept_run (evs : list Event) (w w' : World) :
  transcriptKept w -> run api evs w = Some w' -> transcriptKept w'.
Proof.
  revert w. induction evs as [| ev evs IH]; intros w H Hrun; simpl in Hrun.
  - now injection Hrun as <-.
  - destruct (step api w ev) as [w1|] eqn:Hstep; [ | discriminate ].
    apply (IH w1); [ eapply kept_step; eassumption | exact Hrun ].
Qed.

(** X9. In every world the dashboard can reach, whatever the order in
    which submits and answers interleave and whatever the service does, the
    transcript begins with the greeting of the first render and has an odd
    number of bubbles.  And in one more turn of the event loop every bubble
    but the last stays where it is and the last is kept, kept and followed
    by new bubbles, or replaced: no bubble is dropped, the transcript never
    gets shorter, and the greeting is still first. *)
Theorem transcript_kept (evs : list Event) (w w' : World) (ev : Event)
    (Hreach : run api evs mount = Some w)
    (Hstep : step api w ev = Some w') :
  (exists rest,
     chatMessages (state w) = (chatMessages initialState ++ rest)%list)
  /\ Nat.Odd (length (chatMessages (state w)))
  /\ (exists kept lastOld newTail,
        chatMessages (state w) = (kept ++ [lastOld])%list
        /\ chatMessages (state w') = (kept ++ newTail)%list
        /\ newTail <> [])
  /\ length (chatMessages (state w)) <= length (chatMessages (state w'))
  /\ (exists rest',
        chatMessages (state w') = (chatMessages initialState ++ rest')%list).
Proof.
  pose proof (kept_run evs mount w kept_mount Hreach) as H.
  pose proof (kept_step w w' ev H Hstep) as H'.
  destruct H as (rest & Hm & [k Hk] & _).
  destruct H' as (rest' & Hm' & _ & _).
  split; [ now exists rest | ].
  split; [ rewrite Hm, length_app, Hk; exists k; cbn; lia | ].
  assert (Hne : chatMessages (state w) <> [])
    by (rewrite Hm; discriminate).
  destruct (exists_last Hne) as (kept & lastOld & Hlast).
  assert (Hshape :
            exists newTail,
              chatMessages (state w') = (kept ++ newTail)%list
              /\ newTail <> [] /\ 1 <= length newTail).
  { destruct (transcript_step w w' ev Hstep) as [Hs | [[q Hs] | [a Hs]]];
      rewrite Hs, Hlast.
    - exists [lastOld]. repeat split; [ discriminate | cbn; lia ].
    - exists [lastOld; mkMsg "user" (Str q); thinkingMessage].
      rewrite <- app_assoc. repeat split; [ discriminate | cbn; lia ].
    - exists [mkMsg "bot" a]. rewrite removelast_last.
      repeat split; [ discriminate | cbn; lia ]. }
  destruct Hshape as (newTail & Hnew & Hnonempty & Hlen).
  split; [ now exists kept, lastOld, newTail | ].
  split; [ | now exists rest' ].
  rewrite Hnew, Hlast, !length_app. cbn. lia.
Qed.

End TranscriptFacts.

Lemma transcript_kept_witness :
  exists rest,
    chatMessages
      (state (dispatch (handleChatSubmit "How did Wipro perform?")
                (dispatch [ setChatInput "How did Wipro perform?" ] mount)))
    = (chatMessages initialState ++ rest)%list.
Proof.
  destruct (transcript_kept api
              [ TypeChat "How did Wipro perform?" ]
              (dispatch [ setChatInput "How did Wipro perform?" ] mount)
              (dispatch (handleChatSubmit "How did Wipro perform?")
                 (dispatch [ setChatInput "How did Wipro perform?" ] mount))
              SubmitChat eq_refl eq_refl) as (_ & _ & _ & _ & rest & H).
  exists rest. exact H.
Defined.

(** X10. Two questions submitted before the first answer arrives: each
    answer replaces the last bubble, whichever question it belongs to.  The
    answer to the first question lands in the placeholder of the second and
    is overwritten when the second answer arrives; the placeholder of the
    first question stays in the transcript and the first answer is lost. *)
Theorem chat_overlap_overwrites
    (w : World) (q1 q2 : string) (net1 net2 : FetchOutcome)
    (Hnum : wellNumbered w)
    (Hq1 : emptyStr (trim q1) = false)
    (Hq2 : emptyStr (trim q2) = false) :
  exists a1 a2 w4 w5 w6,
    sendChatMessage q1 net1 = Normal a1
    /\ sendChatMessage q2 net2 = Normal a2
    /\ run api [ TypeChat q1; SubmitChat; TypeChat q2; SubmitChat ] w = Some w4
    /\ chatMessages (state w4)
       = (chatMessages (state w)
          ++ [ mkMsg "user" (Str q1); thinkingMessage;
               mkMsg "user" (Str q2); thinkingMessage ])%list
    /\ step api w4 (Settle (nextCall w) net1) = Some w5
    /\ chatMessages (state w5)
       = (chatMessages (state w)
          ++ [ mkMsg "user" (Str q1); thinkingMessage;
               mkMsg "user" (Str q2); mkMsg "bot" a1 ])%list
    /\ step api w5 (Settle (S (nextCall w)) net2) = Some w6
    /\ chatMessages (state w6)
       = (chatMessages (state w)
          ++ [ mkMsg "user" (Str q1); thinkingMessage;
               mkMsg "user" (Str q2); mkMsg "bot" a2 ])%list.
Proof.
  destruct (sendChatMessage_total q1 net1) as [a1 Ha1].
  destruct (sendChatMessage_total q2 net2) as [a2 Ha2].
  destruct (type_chat w q1) as (Hs1 & Hi1 & Hm1 & Hp1 & Hn1). cbv zeta in *.
  set (w1 := dispatch [ setChatInput q1 ] w) in *.
  assert (Hb1 : emptyStr (trim (chatInput (state w1))) = false)
    by now rewrite Hi1.
  destruct (submit_accepted w1 Hb1) as (Hm2 & _ & Hp2 & Hn2). cbv zeta in *.
  assert (Hs2 : step api w1 SubmitChat
                = Some (dispatch (handleChatSubmit (chatInput (state w1))) w1))
    by reflexivity.
  set (w2 := dispatch (handleChatSubmit (chatInput (state w1))) w1) in *.
  rewrite Hi1, Hm1 in Hm2. rewrite Hi1, Hp1, Hn1 in Hp2. rewrite Hn1 in Hn2.
  destruct (type_chat w2 q2) as (Hs3 & Hi3 & Hm3 & Hp3 & Hn3). cbv zeta in *.
  set (w3 := dispatch [ setChatInput q2 ] w2) in *.
  assert (Hb3 : emptyStr (trim (chatInput (state w3))) = false)
    by now rewrite Hi3.
  destruct (submit_accepted w3 Hb3) as (Hm4 & _ & Hp4 & _). cbv zeta in *.
  assert (Hs4 : step api w3 SubmitChat
                = Some (dispatch (handleChatSubmit (chatInput (state w3))) w3))
    by reflexivity.
  set (w4 := dispatch (handleChatSubmit (chatInput (state w3))) w3) in *.
  rewrite Hi3, Hm3, Hm2, <- app_assoc in Hm4. cbn [app] in Hm4.
  rewrite Hi3, Hp3, Hn3, Hp2, Hn2 in Hp4.
  (* the two calls in the list of pending calls *)
  destruct (findCall_fresh (nextCall w) (pending w) (CallChat q1) Hnum)
    as [_ Hf1].
  assert (Hnum2 : Forall (fun p => fst p < S (nextCall w))
                    (pending w ++ [(nextCall w, CallChat q1)])).
  { apply Forall_app. split.
    - eapply Forall_impl; [ | exact Hnum ]. cbn. intros p Hp. lia.
    - repeat constructor. }
  destruct (findCall_fresh (S (nextCall w)) _ (CallChat q2) Hnum2)
    as [_ Hf2].
  assert (Hfound1 : findCall (nextCall w) (pending w4) = Some (CallChat q1))
    by (rewrite Hp4; now apply findCall_app_found).
  pose proof (settle_chat w4 (nextCall w) q1 net1 a1 Hfound1 Ha1) as Hs5.
  cbv zeta in Hs5.
  set (w5 := exec _ (settled (nextCall w) w4)) in *.
  assert (Hm5 : chatMessages (state w5)
                = (chatMessages (state w)
                   ++ [ mkMsg "user" (Str q1); thinkingMessage;
                        mkMsg "user" (Str q2); mkMsg "bot" a1 ])%list).
  { subst w5. cbn. rewrite Hm4.
    change [ mkMsg "user" (Str q1); thinkingMessage; mkMsg "user" (Str q2);
             thinkingMessage ]
      with ([ mkMsg "user" (Str q1); thinkingMessage; mkMsg "user" (Str q2) ]
            ++ [thinkingMessage])%list.
    now rewrite app_assoc, removelast_last, <- app_assoc. }
  assert (Hfound2 : findCall (S (nextCall w)) (pending w5)
                    = Some (CallChat q2)).
  { subst w5. cbn. rewrite findCall_filter_other by lia. now rewrite Hp4. }
  clearbody w5.
  pose proof (settle_chat w5 (S (nextCall w)) q2 net2 a2 Hfound2 Ha2) as Hs6.
  cbv zeta in Hs6.
  set (w6 := exec _ (settled (S (nextCall w)) w5)) in *.
  exists a1, a2, w4, w5, w6.
  split; [ exact Ha1 | ]. split; [ exact Ha2 | ].
  split; [ cbn [run]; now rewrite Hs1, Hs2, Hs3, Hs4 | ].
  split; [ exact Hm4 | ]. split; [ exact Hs5 | ]. split; [ exact Hm5 | ].
  split; [ exact Hs6 | ].
  subst w6. cbn. rewrite Hm5.
  change [ mkMsg "user" (Str q1); thinkingMessage; mkMsg "user" (Str q2);
           mkMsg "bot" a1 ]
    with ([ mkMsg "user" (Str q1); thinkingMessage; mkMsg "user" (Str q2) ]
          ++ [mkMsg "bot" a1])%list.
  now rewrite app_assoc, removelast_last, <- app_assoc.
Qed.

Lemma chat_overlap_overwrites_witness :
  exists w6,
    run api
      [ TypeChat "How did Wipro perform?"; SubmitChat;
        TypeChat "And Infosys?"; SubmitChat;
        Settle 1 (okBody (Obj [("response", Str "Wipro grew.")]));
        Settle 2 (okBody (Obj [("response", Str "Infosys fell.")])) ]
      mount = Some w6
    /\ chatMessages (state w6)
       = (chatMessages initialState
          ++ [ mkMsg "user" (Str "How did Wipro perform?"); thinkingMessage;
               mkMsg "user" (Str "And Infosys?");
               mkMsg "bot" (Str "Infosys fell.") ])%list.
Proof.
  destruct (chat_overlap_overwrites mount "How did Wipro perform?"
              "And Infosys?"
              (okBody (Obj [("response", Str "Wipro grew.")]))
              (okBody (Obj [("response", Str "Infosys fell.")]))
              wellNumbered_mount eq_refl eq_refl)
    as (a1 & a2 & w4 & w5 & w6 & Ha1 & Ha2 & Hrun & _ & Hs5 & _ & Hs6 & Hm6).
  exists w6.
  injection Ha2 as <-.
  split; [ | exact Hm6 ].
  cbn [run] in Hrun |- *.
  destruct (step api mount (TypeChat "How did Wipro perform?")) as [x1|];
    [ | discriminate Hrun ].
  destruct (step api x1 SubmitChat) as [x2|]; [ | discriminate Hrun ].
  destruct (step api x2 (TypeChat "And Infosys?")) as [x3|];
    [ | discriminate Hrun ].
  destruct (step api x3 SubmitChat) as [x4|]; [ | discriminate Hrun ].
  injection Hrun as ->. change (nextCall mount) with 1 in Hs5, Hs6.
  rewrite Hs5, Hs6. reflexivity.
Defined.

(** ** The dashboard with the real service *)

(** X11. When a processing call settles, whatever the network did, the
    result is a tagged one, the processing slot is cleared whatever it held
    (also the name of another company whose call is still pending), the
    toast shows the message for the result, which is never empty, and no
    rejection is left unhandled: no spinner is stuck. *)
Theorem processing_always_settles
    (w : World) (id : nat) (company ticker : string) (net : FetchOutcome)
    (Hpending : findCall id (pending w) = Some (CallProcess company ticker)) :
  exists w',
    step api w (Settle id net) = Some w'
    /\ processingCompany (state w') = None
    /\ notification (state w')
       = Some (toastOfResult company (processResult net))
    /\ toastOfResult company (processResult net) <> ""
    /\ unhandled w' = unhandled w.
Proof.
  unfold step. rewrite Hpending. eexists. split; [ reflexivity | ].
  unfold resume. cbn [svc_triggerResultProcessing api].
  assert (Hr : triggerResultProcessing company ticker net
               = Normal (processResult net))
    by (destruct net as [e | [[|] [bad | v]]]; reflexivity).
  rewrite Hr. unfold toastOfResult.
  destruct (processResult net) as [data | error];
    cbn -[dispatch successToast errorToast].
  - rewrite notification_dispatch, unhandled_dispatch. unfold dispatch.
    match goal with
    | |- context [commit ?old ?x] =>
        destruct (commit_frame old x) as ((_ & _ & _ & _ & _ & Hp & _) & _)
    end.
    rewrite Hp. repeat split. discriminate.
  - rewrite notification_dispatch, unhandled_dispatch. unfold dispatch.
    match goal with
    | |- context [commit ?old ?x] =>
        destruct (commit_frame old x) as ((_ & _ & _ & _ & _ & Hp & _) & _)
    end.
    rewrite Hp. repeat split. discriminate.
Qed.

Lemma processing_always_settles_witness :
  exists w',
    step api (dispatch (handleProcessResult "Wipro" "WIPRO") mount)
      (Settle 1 (Responded (mkResponse true (BadJson (mkError "SyntaxError" "Unexpected token")))))
    = Some w'
    /\ processingCompany (state w') = None
    /\ notification (state w')
       = Some "❌ Error processing Wipro: Unexpected token".
Proof.
  destruct (processing_always_settles
              (dispatch (handleProcessResult "Wipro" "WIPRO") mount) 1
              "Wipro" "WIPRO"
              (Responded (mkResponse true
                            (BadJson (mkError "SyntaxError" "Unexpected token"))))
              eq_refl) as (w' & Hs & Hp & Hn & _).
  exists w'. repeat split; assumption.
Defined.

(** The world after a load settled with the real service, in closed form. *)
Lemma load_with_real_service_any
    (r : Resource) (w : World) (id : nat) (net : FetchOutcome) :
  findCall id (pending w) = Some (loaderCall r) ->
  let w' := exec (loadResume r (Normal (listResult net))) (settled id w) in
  step api w (Settle id net) = Some w'
  /\ stored r (state w') = listResult net
  /\ pending w' = pending (settled id w).
Proof.
  intros Hpending. cbv zeta. unfold step. rewrite Hpending.
  destruct (fetch_lists_shape net) as [Hu Hl].
  destruct r; cbn [loaderCall resume svc_fetchUpcomingResults
                   svc_fetchLatestResults api loadResume];
    rewrite ?Hu, ?Hl; unfold dispatch;
    cbn [loadUpcomingResults_resume loadLatestResults_resume app exec
         fold_left];
    rewrite commit_unchanged by reflexivity; repeat split.
Qed.

(** X12. With the real service the [catch] of a load does not run when the
    load fails.  When the call of a load settles and the request was
    rejected or answered with a status that is not ok (and in every other
    case in which the service resolves to the empty array: a body that does
    not parse, a falsy body), the list of that resource becomes the empty
    array, the spinner goes, the error banner is not touched and nothing is
    left unhandled.  A failed request empties the list instead of showing
    an error. *)
Theorem load_with_real_service
    (r : Resource) (w : World) (id : nat) (net : FetchOutcome)
    (Hpending : findCall id (pending w) = Some (loaderCall r))
    (Hempty : failedRequest net = true \/ listResult net = Arr []) :
  exists w',
    step api w (Settle id net) = Some w'
    /\ listResult net = Arr []
    /\ stored r (state w') = Arr []
    /\ loading (state w') = false
    /\ error (state w') = error (state w)
    /\ unhandled w' = unhandled w.
Proof.
  assert (Hlist : listResult net = Arr []).
  { destruct Hempty as [H | H]; [ | exact H ].
    destruct net as [e | [[|] body]]; cbn in H;
      first [ reflexivity | discriminate H ]. }
  destruct (load_with_real_service_any r w id net Hpending)
    as (Hstep & Hstored & _).
  eexists. split; [ exact Hstep | ].
  split; [ exact Hlist | ].
  split; [ now rewrite Hstored | ].
  destruct r; cbn; repeat split.
Qed.

Lemma load_with_real_service_witness :
  exists w',
    step api mount (Settle 0 (Responded (mkResponse false (Json Null))))
    = Some w'
    /\ upcomingResults (state w') = Arr []
    /\ error (state w') = None.
Proof.
  destruct (load_with_real_service Upcoming mount 0
              (Responded (mkResponse false (Json Null))) eq_refl
              (or_introl eq_refl))
    as (w' & Hs & _ & Hd & _ & He & _).
  exists w'. repeat split; assumption.
Defined.

Lemma calm_dispatch (cmds : list Cmd) (w : World) :
  calm w ->
  error (state (exec cmds w)) = None ->
  calm (dispatch cmds w).
Proof.
  intros [_ Hu] He. split.
  - destruct (error_dispatch cmds w) as [H | H]; congruence.
  - now rewrite unhandled_dispatch.
Qed.

Lemma calm_step (w w' : World) (ev : Event) :
  calm w -> step api w ev = Some w' -> calm w'.
Proof.
  intros H Hstep. pose proof H as [He Hu]. destruct ev; cbn in Hstep.
  - injection Hstep as <-. now apply calm_dispatch.
  - injection Hstep as <-.
    destruct (activeTab (state w) =? "calendar"); now apply calm_dispatch.
  - injection Hstep as <-. now apply calm_dispatch.
  - injection Hstep as <-. now apply calm_dispatch.
  - injection Hstep as <-. now apply calm_dispatch.
  - injection Hstep as <-. apply calm_dispatch; [ exact H | ].
    unfold handleChatSubmit.
    now destruct (emptyStr (trim (chatInput (state w)))).
  - destruct (findCall id (pending w)) as [call|]; [ | discriminate ].
    injection Hstep as <-.
    assert (Hs : calm (settled id w)) by exact H.
    destruct (fetch_lists_shape net) as [Hup Hla].
    destruct call; cbn -[dispatch].
    + rewrite Hup. now apply calm_dispatch.
    + rewrite Hla. now apply calm_dispatch.
    + destruct (sendChatMessage_total question net) as [a Ha]. rewrite Ha.
      now apply calm_dispatch.
    + assert (Hr : triggerResultProcessing company ticker net
                   = Normal (processResult net))
        by (destruct net as [e | [[|] [bad | v]]]; reflexivity).
      rewrite Hr.
      destruct (processResult net); cbn -[dispatch]; now apply calm_dispatch.
  - destruct (findTimer id (timers w)) as [due|]; [ | discriminate ].
    destruct (Nat.leb due (clock w)); [ | discriminate ].
    injection Hstep as <-. apply calm_dispatch; [ exact H | exact He ].
  - injection Hstep as <-. exact H.
Qed.

(** X13. With the real service, in every world the dashboard can reach the
    error banner is absent and no promise rejection is unhandled: the
    service absorbs every failure, so the two [setError('Failed to load
    ...')] calls of the loaders are never reached. *)
Theorem never_an_error (evs : list Event) (w : World)
    (Hreach : run api evs mount = Some w) :
  error (state w) = None /\ unhandled w = [].
Proof.
  assert (H0 : calm mount) by (split; reflexivity).
  revert Hreach. generalize H0. generalize mount.
  induction evs as [| ev evs IH]; intros w0 Hc Hrun; simpl in Hrun.
  - injection Hrun as <-. exact Hc.
  - destruct (step api w0 ev) as [w1|] eqn:Hstep; [ | discriminate ].
    apply (IH w1); [ eapply calm_step; eassumption | exact Hrun ].
Qed.

Lemma never_an_error_witness :
  error (state (dispatch [ setActiveTab "latest" ] mount)) = None.
Proof.
  exact (proj1 (never_an_error [ ClickTab LatestTab ]
                  (dispatch [ setActiveTab "latest" ] mount) eq_refl)).
Defined.

(** ** More about the toast *)

Lemma toast_texts_not_empty (company : string) (result : ProcessResult) :
  successToast company <> "" /\ errorToast company (errorOf result) <> "".
Proof. split; discriminate. Qed.

Lemma visible_dispatch (cmds : list Cmd) (w : World) :
  (forall m, notification (state (exec cmds w)) = Some m -> m <> "") ->
  toastVisible (dispatch cmds w).
Proof.
  intros H m Hm. rewrite notification_dispatch in Hm. now apply H.
Qed.

Lemma toastView_fields (w : World) n ts nt c k :
  toastView w = (n, ts, nt, c, k) ->
  notification (state w) = n /\ timers w = ts /\ nextTimer w = nt
  /\ cleanup w = c /\ clock w = k.
Proof. unfold toastView. intros [= <- <- <- <- <-]. repeat split. Qed.

(** A commit keeps the timer of the notification on display, or starts one
    for the new notification. *)
Lemma live_dispatch (cmds : list Cmd) (w : World) :
  toastTimed w -> toastLive w -> toastLive (dispatch cmds w).
Proof.
  intros Ht Hl m Hm Hne.
  pose proof (commit_toastView (state w) (exec cmds w)) as Hv.
  fold (dispatch cmds w) in Hv.
  destruct (exec_environment cmds w) as (E1 & E2 & E3 & E4 & _).
  destruct (sameNotification (notification (state w))
              (notification (state (exec cmds w)))) eqn:Es.
  - apply sameNotification_eq in Es.
    unfold toastView in Hv. injection Hv as Hn Hts _ Hc Hk.
    rewrite Hn, <- Es in Hm. rewrite Hts, Hc, Hk, E1, E3, E4.
    exact (Hl m Hm Hne).
  - rewrite effect_toastView_explicit in Hv. cbv zeta in Hv.
    rewrite E1, E2, E3, E4 in Hv.
    assert (Hrest : match cleanup w with
                    | Some id =>
                        filter (fun t => negb (Nat.eqb (fst t) id)) (timers w)
                    | None => timers w
                    end = []).
    { unfold toastTimed, timedFor in Ht. destruct (cleanup w) as [i|].
      - destruct Ht as (due & n & -> & _). cbn. now rewrite Nat.eqb_refl.
      - exact Ht. }
    rewrite Hrest in Hv.
    destruct (notification (state (exec cmds w))) as [n|].
    + destruct (emptyStr n) eqn:He;
        apply toastView_fields in Hv;
        destruct Hv as (Hn & Hts & _ & Hc & Hk);
        rewrite Hn in Hm; injection Hm as ->.
      * apply String.eqb_eq in He. contradiction.
      * exists (nextTimer w), (clock w + 3000).
        rewrite Hts, Hc, Hk. repeat split. lia.
    + apply toastView_fields in Hv. destruct Hv as (Hn & _).
      rewrite Hn in Hm. discriminate Hm.
Qed.

(** A segment that keeps the tab is committed without a load: the hook
    state and the pending calls are those the segment left. *)
Lemma dispatch_same_tab (cmds : list Cmd) (w : World) :
  activeTab (state w) = activeTab (state (exec cmds w)) ->
  state (dispatch cmds w) = state (exec cmds w)
  /\ pending (dispatch cmds w) = pending (exec cmds w).
Proof.
  intros H. unfold dispatch, commit. rewrite H, String.eqb_refl.
  destruct (sameNotification _ _); [ split; reflexivity | ].
  destruct (effect_frame (notificationCleanup (exec cmds w))) as (E1 & E2 & _).
  destruct (cleanup_frame (exec cmds w)) as (C1 & C2 & _).
  now rewrite E1, E2, C1, C2.
Qed.

Lemma live_mount : toastLive mount.
Proof. intros m Hm. discriminate Hm. Qed.

Lemma visible_mount : toastVisible mount.
Proof. intros m Hm. discriminate Hm. Qed.

Section ToastInvariants.

Variable api : Service.

Lemma visible_step (w w' : World) (ev : Event) :
  toastVisible w -> step api w ev = Some w' -> toastVisible w'.
Proof.
  intros H Hstep. destruct ev; cbn in Hstep.
  - injection Hstep as <-. apply visible_dispatch. exact H.
  - injection Hstep as <-.
    destruct (activeTab (state w) =? "calendar");
      apply visible_dispatch; exact H.
  - injection Hstep as <-. apply visible_dispatch. exact H.
  - injection Hstep as <-. apply visible_dispatch. exact H.
  - injection Hstep as <-. apply visible_dispatch. exact H.
  - injection Hstep as <-. apply visible_dispatch. unfold handleChatSubmit.
    destruct (emptyStr (trim (chatInput (state w)))); exact H.
  - destruct (findCall id (pending w)) as [call|]; [ | discriminate ].
    injection Hstep as <-.
    destruct call; cbn -[dispatch reject].
    + apply visible_dispatch.
      destruct (svc_fetchUpcomingResults api net); exact H.
    + apply visible_dispatch.
      destruct (svc_fetchLatestResults api net); exact H.
    + destruct (svc_sendChatMessage api question net);
        cbn -[dispatch reject]; intros m Hm; rewrite state_reject in Hm;
        revert m Hm; apply visible_dispatch; exact H.
    + destruct (svc_triggerResultProcessing api company ticker net)
        as [[data | error] | e];
        cbn -[dispatch reject successToast errorToast];
        intros m Hm; rewrite state_reject in Hm; revert m Hm;
        apply visible_dispatch; cbn -[successToast errorToast].
      * intros m [= <-]. discriminate.
      * intros m [= <-]. discriminate.
      * exact H.
  - destruct (findTimer id (timers w)) as [due|]; [ | discriminate ].
    destruct (Nat.leb due (clock w)); [ | discriminate ].
    injection Hstep as <-. apply visible_dispatch. cbn. discriminate.
  - injection Hstep as <-. exact H.
Qed.

Lemma live_step (w w' : World) (ev : Event) :
  toastTimed w -> toastLive w -> step api w ev = Some w' -> toastLive w'.
Proof.
  intros Ht H Hstep. destruct ev; cbn in Hstep.
  1-6: injection Hstep as <-; now apply live_dispatch.
  - destruct (findCall id (pending w)) as [call|]; [ | discriminate ].
    injection Hstep as <-.
    assert (Hts : toastTimed (settled id w)) by exact Ht.
    assert (Hls : toastLive (settled id w)) by exact H.
    assert (Hrej : forall e x, toastLive x -> toastLive (reject e x))
      by (intros [e|] x Hx; exact Hx).
    destruct call; cbn -[dispatch reject].
    + now apply live_dispatch.
    + now apply live_dispatch.
    + destruct (handleChatSubmit_resume _) as [cmds e].
      now apply Hrej, live_dispatch.
    + destruct (handleProcessResult_resume _ _) as [cmds e].
      now apply Hrej, live_dispatch.
  - destruct (findTimer id (timers w)) as [due|]; [ | discriminate ].
    destruct (Nat.leb due (clock w)); [ | discriminate ].
    injection Hstep as <-. intros m Hm.
    rewrite notification_dispatch in Hm. discriminate Hm.
  - injection Hstep as <-. intros m Hm Hne.
    destruct (H m Hm Hne) as (i & due & Hti & Hc & Hdue).
    exists i, due. cbn. repeat split; try assumption. lia.
Qed.

Lemma toast_invariants (evs : list Event) (w : World) :
  run api evs mount = Some w ->
  toastTimed w /\ toastLive w /\ toastVisible w.
Proof.
  assert (H0 : toastTimed mount /\ toastLive mount /\ toastVisible mount)
    by (split; [ apply toastTimed_mount
               | split; [ apply live_mount | apply visible_mount ] ]).
  revert H0. generalize mount.
  induction evs as [| ev evs IH]; intros w0 (Ht & Hl & Hv) Hrun;
    simpl in Hrun.
  - injection Hrun as <-. repeat split; assumption.
  - destruct (step api w0 ev) as [w1|] eqn:Hstep; [ | discriminate ].
    apply (IH w1); [ | exact Hrun ].
    split; [ eapply toastTimed_step; eassumption | ].
    split; [ eapply live_step; eassumption
           | eapply visible_step; eassumption ].
Qed.

(** X14. In every world the dashboard can reach, a timer is pending
    exactly when a notification is on display: the notification is then a
    non-empty text, the timer is the only pending timer and it is due at
    most 3000 ms from now; without a notification no timer is pending.  A
    toast cannot stay without a timer to clear it, and no timer is leaked. *)
Theorem toast_timer_iff_shown (evs : list Event) (w : World)
    (Hreach : run api evs mount = Some w) :
  match notification (state w) with
  | Some m =>
      m <> ""
      /\ exists id due, timers w = [(id, due)] /\ due <= clock w + 3000
  | None => timers w = []
  end.
Proof.
  destruct (toast_invariants evs w Hreach) as (Ht & Hl & Hv).
  destruct (notification (state w)) as [m|] eqn:Hn.
  - pose proof (Hv m Hn) as Hne. split; [ exact Hne | ].
    destruct (Hl m Hn Hne) as (id & due & Hts & _ & Hdue).
    now exists id, due.
  - unfold toastTimed, timedFor in Ht. rewrite Hn in Ht.
    destruct (cleanup w); [ | exact Ht ].
    destruct Ht as (_ & m & _ & _ & Hm & _). discriminate Hm.
Qed.

(** X15. When the timer fires, in any reachable world, it is the timer of
    the notification on display and it is due; the notification is cleared,
    no timer is left, and nothing else changes: every other hook and the
    pending calls stay as they are. *)
Theorem timeout_clears (evs : list Event) (w w' : World) (id : nat)
    (Hreach : run api evs mount = Some w)
    (Hfire : step api w (Timeout id) = Some w') :
  (exists m due,
     notification (state w) = Some m /\ timers w = [(id, due)]
     /\ due <= clock w)
  /\ notification (state w') = None
  /\ timers w' = []
  /\ state w' = state (exec [ setNotification None ] w)
  /\ pending w' = pending w.
Proof.
  destruct (toast_invariants evs w Hreach) as (Ht & _ & _).
  cbn in Hfire.
  destruct (findTimer id (timers w)) as [due|] eqn:Hf; [ | discriminate ].
  destruct (Nat.leb_spec due (clock w)) as [Hdue|]; [ | discriminate ].
  injection Hfire as <-.
  unfold toastTimed, timedFor in Ht.
  destruct (cleanup w) as [i|] eqn:Hc;
    [ | rewrite Ht in Hf; discriminate Hf ].
  destruct Ht as (due' & m & Hts & _ & Hm & _).
  rewrite Hts, findTimer_single in Hf.
  destruct (Nat.eqb_spec i id) as [-> | _]; [ | discriminate Hf ].
  injection Hf as ->.
  split; [ exists m, due; repeat split; assumption | ].
  pose proof (commit_toastView (state (fired id w))
                (exec [ setNotification None ] (fired id w))) as Hv.
  fold (dispatch [ setNotification None ] (fired id w)) in Hv.
  cbn [exec fold_left exec1 setState state notification fired] in Hv.
  rewrite Hm in Hv. cbn [sameNotification] in Hv.
  rewrite effect_toastView_explicit in Hv. cbn in Hv.
  rewrite Hc, Hts in Hv. cbn in Hv. rewrite Nat.eqb_refl in Hv. cbn in Hv.
  apply toastView_fields in Hv. destruct Hv as (Hn' & Hts' & _).
  split; [ exact Hn' | ]. split; [ exact Hts' | ].
  destruct (dispatch_same_tab [ setNotification None ] (fired id w) eq_refl)
    as [Hs Hp].
  rewrite Hs, Hp. split; reflexivity.
Qed.

End ToastInvariants.

Lemma toast_timer_iff_shown_witness :
  timers (dispatch [ setActiveTab "chat" ] mount) = [].
Proof.
  exact (toast_timer_iff_shown api [ ClickTab ChatTab ]
           (dispatch [ setActiveTab "chat" ] mount) eq_refl).
Defined.

(** X16. When a processing call settles with the very message that is on
    display, the toast is left as it is: the timer of the first display is
    neither cancelled nor restarted, so the message goes away 3000 ms after
    it was first shown. *)
Theorem toast_same_message_keeps_timer
    (w : World) (id : nat) (company ticker : string) (net : FetchOutcome)
    (Hpending : findCall id (pending w) = Some (CallProcess company ticker))
    (Hshown : notification (state w)
              = Some (toastOfResult company (processResult net))) :
  exists w',
    step api w (Settle id net) = Some w'
    /\ toastView w' = toastView w.
Proof.
  assert (Hr : svc_triggerResultProcessing api company ticker net
               = Normal (processResult net))
    by (destruct net as [e | [[|] [bad | v]]]; reflexivity).
  destruct (settle_process_shows api w id company ticker net _ Hpending Hr)
    as (w' & Hs & Hv).
  exists w'. split; [ exact Hs | ].
  rewrite Hv.
  destruct (show_same _ w Hshown) as (H1 & H2 & H3 & H4 & H5).
  unfold toastView. now rewrite H1, H2, H3, H4, H5, Hshown.
Qed.

Lemma toast_same_message_keeps_timer_witness :
  exists w',
    step api refusedOnce (Settle 2 (Responded (mkResponse false (Json Null))))
    = Some w'
    /\ timers w' = [(0, 3000)]
    /\ clock w' = 2000.
Proof.
  destruct (toast_same_message_keeps_timer refusedOnce 2 "Wipro" "WIPRO"
              (Responded (mkResponse false (Json Null))) eq_refl eq_refl)
    as (w' & Hs & Hv).
  exists w'. split; [ exact Hs | ].
  unfold toastView in Hv. injection Hv as _ Ht _ _ Hk.
  rewrite Ht, Hk. split; reflexivity.
Defined.

Lemma timeout_clears_witness :
  notification (state toastGone) = None /\ timers toastGone = [].
Proof.
  destruct (timeout_clears api
              [ ClickCard "Wipro" "WIPRO";
                Settle 1 (Responded (mkResponse false (Json Null)));
                Tick 3000 ]
              toastDue toastGone 0)
    as (_ & Hn & Ht & _).
  - vm_compute. reflexivity.
  - vm_compute. reflexivity.
  - split; assumption.
Defined.

(** ** More about chat and loads *)

(** X17. When a chat call settles and the service resolves to a string
    (the connection-error string after any failure, the apology, or a
    [response] field that is a string), the last bubble of the transcript
    is replaced by a bot bubble with that string.  The bubbles before it,
    the input field and the toast stay as they are, and nothing is left
    unhandled. *)
Theorem chat_settle_replaces_last
    (w : World) (id : nat) (q answer : string) (net : FetchOutcome)
    (before : list ChatMessage) (lastBubble : ChatMessage)
    (Hpending : findCall id (pending w) = Some (CallChat q))
    (Hlast : chatMessages (state w) = (before ++ [lastBubble])%list)
    (Hanswer : chatResult net = Str answer) :
  exists w',
    step api w (Settle id net) = Some w'
    /\ sendChatMessage q net = Normal (Str answer)
    /\ chatMessages (state w')
       = (before ++ [mkMsg "bot" (Str answer)])%list
    /\ chatInput (state w') = chatInput (state w)
    /\ toastView w' = toastView w
    /\ unhandled w' = unhandled w.
Proof.
  assert (Ha : sendChatMessage q net = Normal (Str answer)).
  { rewrite <- Hanswer.
    destruct net as [e | [[|] [bad | v]]]; try reflexivity.
    destruct v; reflexivity. }
  pose proof (settle_chat w id q net _ Hpending Ha) as Hs. cbv zeta in Hs.
  eexists. split; [ exact Hs | ].
  split; [ exact Ha | ].
  cbn. rewrite Hlast, removelast_last. repeat split.
Qed.

Lemma chat_settle_replaces_last_witness :
  exists w',
    step api
      (dispatch (handleChatSubmit "How did Wipro perform?")
         (dispatch [ setChatInput "How did Wipro perform?" ] mount))
      (Settle 1 (okBody (Obj [("response", Str "Revenue grew.")]))) = Some w'
    /\ chatMessages (state w')
       = (chatMessages initialState
          ++ [ mkMsg "user" (Str "How did Wipro perform?");
               mkMsg "bot" (Str "Revenue grew.") ])%list.
Proof.
  destruct (chat_settle_replaces_last
              (dispatch (handleChatSubmit "How did Wipro perform?")
                 (dispatch [ setChatInput "How did Wipro perform?" ] mount))
              1 "How did Wipro perform?" "Revenue grew."
              (okBody (Obj [("response", Str "Revenue grew.")]))
              (chatMessages initialState
               ++ [ mkMsg "user" (Str "How did Wipro perform?") ])%list
              thinkingMessage eq_refl eq_refl eq_refl)
    as (w' & Hs & _ & Hm & _).
  exists w'. split; [ exact Hs | exact Hm ].
Defined.

Section LoadFacts.

Variable api : Service.

(** X18. Entering the calendar or the latest tab by a click shows the
    spinner and takes the error banner away (a load starts); entering the
    chat tab leaves both as they are.  The lists, the chat and the toast
    are untouched by a tab click. *)
Theorem tab_entry_flags (w : World) (b : TabButton)
    (Hother : activeTab (state w) <> tab_id b) :
  exists w',
    step api w (ClickTab b) = Some w'
    /\ sameData (exec [ setActiveTab (tab_id b) ] w).(state) (state w')
    /\ toastView w' = toastView w
    /\ match b with
       | ChatTab =>
           loading (state w') = loading (state w)
           /\ error (state w') = error (state w)
       | _ => loading (state w') = true /\ error (state w') = None
       end.
Proof.
  eexists. split; [ reflexivity | ].
  apply String.eqb_neq in Hother.
  split.
  { unfold dispatch.
    now destruct (commit_frame (state w) (exec [ setActiveTab (tab_id b) ] w))
      as (H & _). }
  split.
  { unfold dispatch. rewrite commit_toastView.
    cbn [exec fold_left exec1 setState state notification].
    now rewrite sameNotification_refl. }
  unfold dispatch, commit.
  cbn [exec fold_left exec1 setState state activeTab notification].
  rewrite Hother.
  destruct b; cbn; rewrite sameNotification_refl; split; reflexivity.
Qed.

(** X19. The spinner is one flag shared by all loads: when two loads are
    pending and one of them settles, the spinner goes although the other
    load is still pending. *)
Theorem spinner_stops_early
    (w : World) (id1 id2 : nat) (r1 r2 : Resource) (net : FetchOutcome)
    (Hfirst : findCall id1 (pending w) = Some (loaderCall r1))
    (Hsecond : findCall id2 (pending w) = Some (loaderCall r2))
    (Hdistinct : id1 <> id2) :
  exists w',
    step api w (Settle id1 net) = Some w'
    /\ loading (state w') = false
    /\ findCall id2 (pending w') = Some (loaderCall r2).
Proof.
  unfold step. rewrite Hfirst. eexists. split; [ reflexivity | ].
  assert (Hkept : findCall id2 (pending (settled id1 w))
                  = Some (loaderCall r2))
    by (cbn; now rewrite findCall_filter_other).
  destruct r1; cbn [loaderCall resume].
  - destruct (svc_fetchUpcomingResults api net);
      unfold dispatch; cbn [loadUpcomingResults_resume app exec fold_left];
      rewrite commit_unchanged by reflexivity;
      (split; [ reflexivity | exact Hkept ]).
  - destruct (svc_fetchLatestResults api net);
      unfold dispatch; cbn [loadLatestResults_resume app exec fold_left];
      rewrite commit_unchanged by reflexivity;
      (split; [ reflexivity | exact Hkept ]).
Qed.

End LoadFacts.

Lemma tab_entry_flags_witness :
  exists w',
    step api mount (ClickTab LatestTab) = Some w'
    /\ loading (state w') = true /\ error (state w') = None.
Proof.
  destruct (tab_entry_flags api mount LatestTab) as (w' & Hs & _ & _ & H).
  - discriminate.
  - exists w'. split; [ exact Hs | exact H ].
Defined.

Lemma spinner_stops_early_witness :
  exists w',
    step api (dispatch [ setActiveTab "latest" ] mount)
      (Settle 0 (okBody (Arr []))) = Some w'
    /\ loading (state w') = false
    /\ findCall 1 (pending w') = Some CallLatest.
Proof.
  exact (spinner_stops_early api (dispatch [ setActiveTab "latest" ] mount)
           0 1 Upcoming Latest (okBody (Arr [])) eq_refl eq_refl
           (fun H => O_S 0 H)).
Defined.

(** X20. The list on display is the one of the response that arrived last,
    not of the request that was made last: when a resource is loaded twice
    and the second call settles before the first, the response of the
    first, older call overwrites the newer one. *)
Theorem stale_load_wins
    (r : Resource) (w : World) (older newer : nat) (netOld netNew : FetchOutcome)
    (Hold : findCall older (pending w) = Some (loaderCall r))
    (Hnew : findCall newer (pending w) = Some (loaderCall r))
    (Horder : older < newer) :
  exists w1 w2,
    step api w (Settle newer netNew) = Some w1
    /\ stored r (state w1) = listResult netNew
    /\ step api w1 (Settle older netOld) = Some w2
    /\ stored r (state w2) = listResult netOld.
Proof.
  destruct (load_with_real_service_any r w newer netNew Hnew)
    as (Hs1 & Hd1 & Hp1).
  assert (Hold1 : findCall older
                    (pending (exec (loadResume r (Normal (listResult netNew)))
                                (settled newer w)))
                  = Some (loaderCall r)).
  { rewrite Hp1. cbn. rewrite findCall_filter_other by lia. exact Hold. }
  destruct (load_with_real_service_any r _ older netOld Hold1)
    as (Hs2 & Hd2 & _).
  eexists. eexists. split; [ exact Hs1 | ]. split; [ exact Hd1 | ].
  split; [ exact Hs2 | exact Hd2 ].
Qed.

Lemma stale_load_wins_witness :
  exists w2,
    run api
      [ ClickRefresh;
        Settle 1 (okBody (Arr [ Obj [("company_name", Str "Wipro")] ]));
        Settle 0 (okBody (Arr [])) ]
      mount = Some w2
    /\ upcomingResults (state w2) = Arr [].
Proof.
  destruct (stale_load_wins Upcoming (dispatch loadUpcomingResults mount) 0 1
              (okBody (Arr []))
              (okBody (Arr [ Obj [("company_name", Str "Wipro")] ]))
              eq_refl eq_refl (le_n 1))
    as (w1 & w2 & Hs1 & _ & Hs2 & Hd).
  exists w2. split; [ | exact Hd ].
  change (run api
            [ ClickRefresh;
              Settle 1 (okBody (Arr [ Obj [("company_name", Str "Wipro")] ]));
              Settle 0 (okBody (Arr [])) ] mount)
    with (match step api (dispatch loadUpcomingResults mount)
                  (Settle 1 (okBody (Arr [ Obj [("company_name", Str "Wipro")] ])))
          with
          | Some x => run api [ Settle 0 (okBody (Arr [])) ] x
          | None => None
          end).
  rewrite Hs1. cbn [run]. now rewrite Hs2.
Defined.


(** ** Submits without concurrency, in any run *)

Lemma idle_dispatch (cmds : list Cmd) (w : World) :
  Forall (fun p => isChatCall p = false) (pending w) ->
  Forall (fun c => chatCall c = false) (awaits cmds) ->
  Forall (fun p => isChatCall p = false) (pending (dispatch cmds w)).
Proof.
  intros Hidle Hcalls. destruct (dispatch_calls cmds w) as [Hp _]. rewrite Hp.
  apply Forall_app. split; [ exact Hidle | ].
  apply numbered_not_chat, Forall_app. split; [ exact Hcalls | ].
  destruct (activeTab (state w) =? activeTab (state (exec cmds w)));
    [ constructor | apply loadOnEntry_not_chat ].
Qed.

Lemma idle_settled (id : nat) (w : World) :
  Forall (fun p => isChatCall p = false) (pending w) ->
  Forall (fun p => isChatCall p = false) (pending (settled id w)).
Proof.
  intros H. cbn. apply Forall_forall. intros p Hin.
  apply filter_In in Hin. rewrite Forall_forall in H. now apply H.
Qed.

(** A segment that leaves the transcript alone and starts no chat call
    keeps the phase, when no chat call is pending. *)
Lemma phase_idle_quiet (n e : nat) (cmds : list Cmd) (w : World) :
  wellNumbered w ->
  length (chatMessages (state w)) = 2 * n + 1 ->
  Forall (fun p => isChatCall p = false) (pending w) ->
  placeholders w <= e ->
  chatMessages (state (exec cmds w)) = chatMessages (state w) ->
  Forall (fun c => chatCall c = false) (awaits cmds) ->
  chatPhase n e (dispatch cmds w).
Proof.
  intros Hnum Hlen Hidle Hph Hsame Hcalls.
  split; [ now apply wellNumbered_dispatch | ].
  split; [ now rewrite chatMessages_dispatch, Hsame | ].
  left. split; [ now apply idle_dispatch | ].
  unfold placeholders. now rewrite chatMessages_dispatch, Hsame.
Qed.

Lemma phase_busy_quiet (n e : nat) (cmds : list Cmd) (w : World)
    (id : nat) (q : string) (body : list ChatMessage) :
  wellNumbered w ->
  length (chatMessages (state w)) = 2 * n + 1 ->
  chatHeld id q (body ++ [thinkingMessage])%list w ->
  length (filter isThinking body) <= e ->
  chatMessages (state (exec cmds w)) = chatMessages (state w) ->
  Forall (fun c => chatCall c = false) (awaits cmds) ->
  chatPhase n e (dispatch cmds w).
Proof.
  intros Hnum Hlen Hheld Hph Hsame Hcalls.
  split; [ now apply wellNumbered_dispatch | ].
  split; [ now rewrite chatMessages_dispatch, Hsame | ].
  right. exists id, q, body. split; [ | exact Hph ].
  now apply held_dispatch.
Qed.

Lemma phase_reject (n e : nat) (err : option Error) (w : World) :
  chatPhase n e w -> chatPhase n e (reject err w).
Proof. now destruct err. Qed.

Lemma filter_thinking_user (l : list ChatMessage) (q : string) :
  filter isThinking (l ++ [mkMsg "user" (Str q)]) = filter isThinking l.
Proof. rewrite filter_app. cbn. now rewrite app_nil_r. Qed.

(** One turn of the event loop, when no chat call is pending. *)
Lemma phase_step_idle (n e : nat) (w w' : World) (ev : Event) :
  wellNumbered w ->
  length (chatMessages (state w)) = 2 * n + 1 ->
  Forall (fun p => isChatCall p = false) (pending w) ->
  placeholders w <= e ->
  step api w ev = Some w' ->
  chatPhase (n + acceptedBy w ev) (e + echoBy w ev) w'.
Proof.
  intros Hnum Hlen Hidle Hph Hstep.
  destruct ev; cbn [acceptedBy echoBy]; cbn in Hstep;
    rewrite ?Nat.add_0_r.
  - injection Hstep as <-. apply phase_idle_quiet; auto; repeat constructor.
  - injection Hstep as <-.
    destruct (activeTab (state w) =? "calendar");
      apply phase_idle_quiet; auto; repeat constructor.
  - injection Hstep as <-. apply phase_idle_quiet; auto; repeat constructor.
  - injection Hstep as <-. apply phase_idle_quiet; auto; repeat constructor.
  - injection Hstep as <-. apply phase_idle_quiet; auto; repeat constructor.
  - (* SubmitChat *)
    injection Hstep as <-.
    destruct (emptyStr (trim (chatInput (state w)))) eqn:Hq.
    + rewrite Nat.add_0_r. unfold handleChatSubmit. rewrite Hq.
      apply phase_idle_quiet; auto; constructor.
    + destruct (submit_accepted w Hq) as (Hm & _ & Hp & _).
      cbv zeta in Hm, Hp.
      destruct (findCall_fresh (nextCall w) (pending w)
                  (CallChat (chatInput (state w))) Hnum) as [_ Hsome].
      split; [ now apply wellNumbered_dispatch | ].
      split; [ rewrite Hm, length_app, Hlen; cbn; lia | ].
      right.
      exists (nextCall w), (chatInput (state w)),
        (chatMessages (state w)
         ++ [mkMsg "user" (Str (chatInput (state w)))])%list.
      split.
      * unfold chatHeld. rewrite Hm, Hp, <- app_assoc.
        split; [ reflexivity | split; [ exact Hsome | ] ].
        intros p Hin Hchat. apply in_app_or in Hin.
        destruct Hin as [Hin | [<- | []]]; [ | reflexivity ].
        rewrite Forall_forall in Hidle. specialize (Hidle p Hin). congruence.
      * rewrite filter_thinking_user. exact Hph.
  - (* Settle *)
    destruct (findCall id (pending w)) as [call|] eqn:Hcall; [ | discriminate ].
    injection Hstep as <-.
    pose proof (wellNumbered_settled id w Hnum) as Hnum'.
    pose proof (idle_settled id w Hidle) as Hidle'.
    destruct call; rewrite ?Nat.add_0_r; cbn -[dispatch reject].
    + destruct (fetchUpcomingResults net);
        apply phase_idle_quiet; auto; repeat constructor.
    + destruct (fetchLatestResults net);
        apply phase_idle_quiet; auto; repeat constructor.
    + exfalso. apply findCall_In in Hcall.
      rewrite Forall_forall in Hidle. specialize (Hidle _ Hcall).
      discriminate Hidle.
    + destruct (triggerResultProcessing company ticker net)
        as [[data | error] | err]; cbn -[dispatch reject];
        apply phase_reject, phase_idle_quiet; auto; repeat constructor.
  - destruct (findTimer id (timers w)) as [due|]; [ | discriminate ].
    destruct (Nat.leb due (clock w)); [ | discriminate ].
    injection Hstep as <-.
    apply phase_idle_quiet; auto; repeat constructor.
  - injection Hstep as <-.
    split; [ exact Hnum | split; [ exact Hlen | left; now split ] ].
Qed.

(** One turn of the event loop while a chat call is pending, when the turn
    is not a submit accepted on top of it. *)
Lemma phase_step_busy (n e : nat) (w w' : World) (ev : Event)
    (id : nat) (q : string) (body : list ChatMessage) :
  wellNumbered w ->
  length (chatMessages (state w)) = 2 * n + 1 ->
  chatHeld id q (body ++ [thinkingMessage])%list w ->
  length (filter isThinking body) <= e ->
  overlapsBy w ev = false ->
  step api w ev = Some w' ->
  chatPhase (n + acceptedBy w ev) (e + echoBy w ev) w'.
Proof.
  intros Hnum Hlen Hheld Hph Hseq Hstep.
  pose proof Hheld as (Hm & Hfound & Honly).
  destruct ev; cbn [acceptedBy echoBy]; cbn in Hstep;
    rewrite ?Nat.add_0_r.
  - injection Hstep as <-.
    eapply phase_busy_quiet; eauto; repeat constructor.
  - injection Hstep as <-.
    destruct (activeTab (state w) =? "calendar");
      eapply phase_busy_quiet; eauto; repeat constructor.
  - injection Hstep as <-.
    eapply phase_busy_quiet; eauto; repeat constructor.
  - injection Hstep as <-.
    eapply phase_busy_quiet; eauto; repeat constructor.
  - injection Hstep as <-.
    eapply phase_busy_quiet; eauto; repeat constructor.
  - (* SubmitChat: only a blank one *)
    injection Hstep as <-. cbn in Hseq.
    destruct (emptyStr (trim (chatInput (state w)))) eqn:Hq.
    + rewrite Nat.add_0_r. unfold handleChatSubmit. rewrite Hq.
      eapply phase_busy_quiet; eauto; constructor.
    + exfalso. cbn in Hseq. apply negb_false_iff, Nat.eqb_eq in Hseq.
      pose proof (chat_found_outstanding id q w Hfound). lia.
  - (* Settle *)
    destruct (Nat.eqb_spec id0 id) as [-> | Hother].
    + (* the pending chat call settles *)
      rewrite Hfound in Hstep |- *.
      destruct (sendChatMessage_total q net) as [a Ha].
      pose proof (settle_chat w id q net a Hfound Ha) as Hs. cbv zeta in Hs.
      unfold step in Hs. rewrite Hfound in Hs. rewrite Hs in Hstep.
      rewrite Ha.
      set (w3 := exec [ setChatMessages
                          (fun prev =>
                             (removelast prev ++ [mkMsg "bot" a])%list) ]
                   (settled id w)) in *.
      assert (Hm' : chatMessages (state w3) = (body ++ [mkMsg "bot" a])%list)
        by (subst w3; cbn; now rewrite Hm, removelast_last).
      assert (Hp' : pending w3
                    = filter (fun p => negb (Nat.eqb (fst p) id)) (pending w))
        by reflexivity.
      assert (Hn' : wellNumbered w3)
        by (apply (wellNumbered_settled id) in Hnum; exact Hnum).
      clearbody w3. injection Hstep as <-.
      split; [ exact Hn' | ].
      split.
      { rewrite Hm'. rewrite Hm in Hlen. rewrite length_app in Hlen |- *.
        exact Hlen. }
      left. split.
      * rewrite Hp'. apply Forall_forall. intros p Hin. apply filter_In in Hin.
        destruct Hin as [Hin Hne].
        destruct (isChatCall p) eqn:Hchat; [ | reflexivity ].
        rewrite (Honly p Hin Hchat), Nat.eqb_refl in Hne. discriminate Hne.
      * unfold placeholders. rewrite Hm', filter_app, length_app. cbn [filter].
        destruct (isThinking (mkMsg "bot" a)); cbn [length]; lia.
    + (* another call settles: it is not a chat call *)
      destruct (findCall id0 (pending w)) as [call|] eqn:Hcall;
        [ | discriminate ].
      injection Hstep as <-.
      pose proof (wellNumbered_settled id0 w Hnum) as Hnum'.
      pose proof (held_settled id id0 q _ w Hother Hheld) as Hheld'.
      destruct call; rewrite ?Nat.add_0_r; cbn -[dispatch reject].
      * destruct (fetchUpcomingResults net);
          eapply phase_busy_quiet; eauto; repeat constructor.
      * destruct (fetchLatestResults net);
          eapply phase_busy_quiet; eauto; repeat constructor.
      * exfalso. apply Hother.
        apply (Honly (id0, CallChat question)); [ | reflexivity ].
        now apply findCall_In.
      * destruct (triggerResultProcessing company ticker net)
          as [[data | error] | err]; cbn -[dispatch reject];
          apply phase_reject; eapply phase_busy_quiet; eauto;
          repeat constructor.
  - destruct (findTimer id0 (timers w)) as [due|]; [ | discriminate ].
    destruct (Nat.leb due (clock w)); [ | discriminate ].
    injection Hstep as <-.
    eapply phase_busy_quiet; eauto; repeat constructor.
  - injection Hstep as <-.
    split; [ exact Hnum | split; [ exact Hlen | right ] ].
    now exists id, q, body.
Qed.

Lemma phase_step (n e : nat) (w w' : World) (ev : Event) :
  chatPhase n e w ->
  overlapsBy w ev = false ->
  step api w ev = Some w' ->
  chatPhase (n + acceptedBy w ev) (e + echoBy w ev) w'.
Proof.
  intros (Hnum & Hlen & [[Hidle Hph] | (id & q & body & Hheld & Hph)]) Hseq Hstep.
  - now apply phase_step_idle.
  - eapply phase_step_busy; eassumption.
Qed.

Lemma phase_run (evs : list Event) (n e : nat) (w w' : World) :
  chatPhase n e w ->
  sequential evs w = true ->
  run api evs w = Some w' ->
  chatPhase (n + accepted evs w) (e + echoes evs w) w'.
Proof.
  revert n e w. induction evs as [| ev evs IH]; intros n e w Hph Hseq Hrun;
    cbn [run accepted echoes sequential] in *.
  - injection Hrun as <-. now rewrite !Nat.add_0_r.
  - destruct (step api w ev) as [w1|] eqn:Hstep; [ | discriminate ].
    apply andb_true_iff in Hseq. destruct Hseq as [Hov Hseq].
    apply negb_true_iff in Hov.
    pose proof (phase_step n e w w1 ev Hph Hov Hstep) as H1.
    specialize (IH _ _ w1 H1 Hseq Hrun).
    now rewrite !Nat.add_assoc.
Qed.

Lemma phase_mount : chatPhase 0 0 mount.
Proof.
  split; [ apply wellNumbered_mount | split; [ reflexivity | left ] ].
  split; [ repeat constructor | cbn; lia ].
Qed.



